(** * Entity reconciliation and graph construction of [scripts/process_data.py]

    A shallow embedding of the record normalizers, the image lookup, the
    relationship extractor, the connection counter, the entity merger and
    the network assembler, together with the properties the specification
    states about them.  The flight and email normalizers, the tables of
    [generate_summary] and, from [scripts/sync_images.py], the names of the
    image files and the keys of the image index are embedded as well, with
    further properties that the code shows.

    Python values are modelled as follows.
    - [str] is [string]; the case mappings, the white space class and the
      ordering follow Python on the ASCII range (characters above 127 are
      kept as uncased, non-space symbols).
    - [int] is [Z]; a finite [float] is its exact rational value.
    - a [dict] read by key only is a [gmap]; a [dict] whose iteration order
      is observed (the image index, the node table, the pair counter) is an
      association list in insertion order.
    - a row of [csv.DictReader] is a [gmap] from column names to optional
      cells ([None] is the filler of a short row).
    - [None] results of the producers are [option].
    - a [Counter] over strings is an association list in the order of the
      first counts; [most_common(n)] takes the first [n] of the stable
      descending sort, as [heapq.nlargest] does.
    - the stem of an image path is the file name without its extension.
    - [int] of a string is the conversion of a decimal literal; the bound
      that recent interpreters put on the number of its digits is not
      modelled. *)

From Stdlib Require Import ZArith QArith Qabs Ascii String List Permutation Sorted Lia.
From stdpp Require Import base option list gmap strings pretty.

#[local] Set Warnings "-clear-no-such-hyp".

Local Open Scope Z_scope.
Local Open Scope string_scope.

(** ** Python string primitives *)

Module PyStr.

Definition code (c : ascii) : N := N_of_ascii c.

(** [str.isspace] on ASCII: TAB..CR, FS..US and the blank. *)
Definition is_space (c : ascii) : bool :=
  let n := code c in
  ((9 <=? n) && (n <=? 13) || (28 <=? n) && (n <=? 32))%N.

Definition is_upper (c : ascii) : bool :=
  let n := code c in ((65 <=? n) && (n <=? 90))%N.

Definition is_lower (c : ascii) : bool :=
  let n := code c in ((97 <=? n) && (n <=? 122))%N.

Definition is_cased (c : ascii) : bool := is_upper c || is_lower c.

Definition is_digit (c : ascii) : bool :=
  let n := code c in ((48 <=? n) && (n <=? 57))%N.

Definition to_lower (c : ascii) : ascii :=
  if is_upper c then ascii_of_N (code c + 32) else c.

Definition to_upper (c : ascii) : ascii :=
  if is_lower c then ascii_of_N (code c - 32) else c.

(** [s.lower()] *)
Fixpoint lower (s : string) : string :=
  match s with
  | EmptyString => EmptyString
  | String c r => String (to_lower c) (lower r)
  end.

(** [s.title()]: a cased character is upper-cased when the character
    before it is not cased, and lower-cased otherwise. *)
Fixpoint title_from (prev_cased : bool) (s : string) : string :=
  match s with
  | EmptyString => EmptyString
  | String c r =>
      String (if prev_cased then to_lower c else to_upper c)
             (title_from (is_cased c) r)
  end.

Definition title (s : string) : string := title_from false s.

Fixpoint lstrip (s : string) : string :=
  match s with
  | EmptyString => EmptyString
  | String c r => if is_space c then lstrip r else s
  end.

Fixpoint rstrip (s : string) : string :=
  match s with
  | EmptyString => EmptyString
  | String c r =>
      match rstrip r with
      | EmptyString => if is_space c then EmptyString else String c EmptyString
      | r' => String c r'
      end
  end.

(** [s.strip()] *)
Definition strip (s : string) : string := rstrip (lstrip s).

(** [len(s)] *)
Definition len (s : string) : Z := Z.of_nat (String.length s).

(** Truth value of a string: non-empty. *)
Definition nonempty (s : string) : bool :=
  match s with EmptyString => false | _ => true end.

(** [a or b] on strings. *)
Definition or_else (a b : string) : string := if nonempty a then a else b.

(** [s.split()]: the maximal runs of non-space characters. [cur] is the
    run being read. *)
Fixpoint split_from (cur : option string) (s : string) : list string :=
  match s with
  | EmptyString =>
      match cur with Some w => [w] | None => [] end
  | String c r =>
      if is_space c then
        match cur with
        | Some w => w :: split_from None r
        | None => split_from None r
        end
      else
        split_from (Some (match cur with
                          | Some w => w +:+ String c EmptyString
                          | None => String c EmptyString
                          end)) r
  end.

Definition split (s : string) : list string := split_from None s.

(** [p in k]: [p] occurs in [k] as a contiguous substring. *)
Fixpoint contains (p k : string) : bool :=
  String.prefix p k ||
  match k with
  | EmptyString => false
  | String _ k' => contains p k'
  end.

(** The separators of [re.split(r"[,;/&]+", s)]. *)
Definition is_delim (c : ascii) : bool :=
  let n := code c in
  ((n =? 44) || (n =? 59) || (n =? 47) || (n =? 38))%N.

(** [re.split(r"[,;/&]+", s)]: the pieces between maximal runs of
    separators; a leading or trailing run leaves an empty piece.
    [in_run] tells that the character before was a separator. *)
Fixpoint re_split_from (cur : string) (in_run : bool) (s : string)
  : list string :=
  match s with
  | EmptyString => [cur]
  | String c r =>
      if is_delim c then
        if in_run then re_split_from cur true r
        else cur :: re_split_from EmptyString true r
      else re_split_from (cur +:+ String c EmptyString) false r
  end.

Definition re_split (s : string) : list string :=
  re_split_from EmptyString false s.

(** Digits of a decimal literal with single underscores between digits. *)
Fixpoint digits_from (acc : Z) (after_digit : bool) (s : string)
  : option Z :=
  match s with
  | EmptyString => if after_digit then Some acc else None
  | String c r =>
      if is_digit c then
        digits_from (10 * acc + (Z.of_N (code c) - 48)) true r
      else if (code c =? 95)%N then
        if after_digit then digits_from acc false r else None
      else None
  end.

(** [int(s)] for a string: [None] stands for [ValueError]. *)
Definition int_of_string (s : string) : option Z :=
  match strip s with
  | EmptyString => None
  | String c r =>
      if (code c =? 45)%N then Z.opp <$> digits_from 0 false r
      else if (code c =? 43)%N then digits_from 0 false r
      else digits_from 0 false (String c r)
  end.

(** [a < b] on strings: lexicographic on character codes. *)
Definition ltb (a b : string) : bool := String.ltb a b.

End PyStr.

(** ** Sorting as [list.sort(key=..., reverse=True)]

    Keys are tuples of integers, compared lexicographically; the sort is
    stable, also with [reverse=True]. *)

Fixpoint lex_ltb (a b : list Z) : bool :=
  match a, b with
  | [], [] => false
  | [], _ :: _ => true
  | _ :: _, [] => false
  | x :: a', y :: b' => (x <? y)%Z || ((x =? y)%Z && lex_ltb a' b')
  end.

Section SortDesc.
Context {A : Type} (key : A -> list Z).

(** [x] is put in front of the first element whose key is not greater. *)
Fixpoint insert_desc (x : A) (l : list A) : list A :=
  match l with
  | [] => [x]
  | y :: l' =>
      if lex_ltb (key x) (key y) then y :: insert_desc x l'
      else x :: y :: l'
  end.

Definition sort_desc (l : list A) : list A := foldr insert_desc [] l.
End SortDesc.

(** ** Data model *)

(** An entry of the image index. *)
Record image_ref := {
  path : string;
  filename : string;
  img_category : string;
  size_bytes : Z
}.

(** The image index: canonical name to images, in insertion order. *)
Abbreviation image_index_t := (list (string * list image_ref)).

(** A row of [csv.DictReader]. *)
Abbreviation csv_row := (gmap string (option string)).

(** Record of [process_entities]. *)
Record entity := {
  e_name : string;
  e_entity_type : string;
  e_role_description : string;
  e_documents : Z;
  e_flights : Z;
  e_emails : Z;
  e_slug : string;
  e_images : list image_ref
}.

(** Record of [process_persons_kaggle]. *)
Record kaggle := {
  k_name : string;
  k_bio : string;
  k_flights : Z;
  k_documents : Z;
  k_connections : Z;
  k_in_black_book : bool;
  k_nationality : string;
  k_category : string;
  k_images : list image_ref
}.

(** Record of the merged persons list. The keys that only one of the two
    dictionary shapes carries are optional. *)
Record person := {
  p_name : string;
  p_entity_type : option string;
  p_role_description : option string;
  p_flights : Z;
  p_documents : Z;
  p_emails : option Z;
  p_connections : Z;
  p_in_black_book : bool;
  p_nationality : string;
  p_category : string;
  p_slug : option string;
  p_bio : option string;
  p_images : list image_ref
}.

(** Relationship edge. *)
Record link := {
  l_source : string;
  l_target : string;
  l_type : string;
  l_weight : Z
}.

(** Record of [process_flights]. *)
Record flight := {
  f_date : string;
  f_year : string;
  f_departure : string;
  f_departure_code : string;
  f_arrival : string;
  f_arrival_code : string;
  f_aircraft : string;
  f_pilot : string;
  f_passengers : string
}.

(** Node of the network; a stub node has no [in_black_book],
    [nationality] and [images] keys. *)
Record node := {
  n_id : string;
  n_group : string;
  n_flights : Z;
  n_documents : Z;
  n_connections : Z;
  n_in_black_book : option bool;
  n_nationality : option string;
  n_images : option (list image_ref)
}.

Record network := {
  nodes : list node;
  links : list link
}.

(** A Python [float]: a finite one is its exact value. *)
Inductive pyfloat :=
| Finite (q : Q)
| Inf (negative : bool)
| NaN.

(** The exceptions the numeric conversions raise. *)
Inductive pyexn := ValueError | TypeError | OverflowError.

(** A value of a decoded JSON object, as far as the conversions tell the
    kinds apart; [JOther] is a list or an object with its truth value. *)
Inductive jval :=
| JNull
| JBool (b : bool)
| JInt (z : Z)
| JFloat (f : pyfloat)
| JStr (s : string)
| JOther (nonempty : bool).

(** ** Record normalizers *)

(** [(record.get(k, "") or "")] *)
Definition get_str (r : csv_row) (k : string) : string :=
  match r !! k with
  | Some (Some s) => s
  | _ => ""
  end.

(** [try: n = int(cell or 0) except (ValueError, TypeError): pass], with
    [n = 0] before; [cell] is [record.get(k, 0)] and [None] a missing
    column. *)
Definition int_or_zero (cell : option (option string)) : Z :=
  match cell with
  | Some (Some s) =>
      if PyStr.nonempty s then default 0 (PyStr.int_of_string s) else 0
  | _ => 0
  end.

(** [image_index.get(k, [])] and [image_index[k]] for a present key. *)
Fixpoint index_get (image_index : image_index_t) (k : string)
  : list image_ref :=
  match image_index with
  | [] => []
  | (k', v) :: rest => if String.eqb k' k then v else index_get rest k
  end.

(** [all(part in key for part in name_parts[:2] if len(part) > 2)] *)
Definition qualifies (name_title key : string) : bool :=
  let name_parts := PyStr.split name_title in
  forallb (fun part => PyStr.contains part key)
          (List.filter (fun part => (2 <? PyStr.len part)%Z)
                       (take 2 name_parts)).

(** The test of the fallback loop for one key. *)
Definition parts_match (name_title key : string) : bool :=
  let name_parts := PyStr.split name_title in
  (2 <=? length name_parts)%nat && qualifies name_title key.

(** The fallback loop over the keys of the index. *)
Fixpoint match_loop (image_index : image_index_t) (keys : list string)
  (name_title : string) : list image_ref :=
  match keys with
  | [] => []
  | key :: rest =>
      if parts_match name_title key then index_get image_index key
      else match_loop image_index rest name_title
  end.

(** The image matching of [process_entities]. *)
Definition match_images (image_index : image_index_t) (name : string)
  : list image_ref :=
  let name_title := PyStr.title name in
  let images := index_get image_index name_title in
  match images with
  | [] => match_loop image_index (map fst image_index) name_title
  | _ => images
  end.

(** One turn of the loop of [process_entities]; [None] is [continue]. *)
Definition entity_of_record (image_index : image_index_t) (record : csv_row)
  : option entity :=
  let name := PyStr.strip (get_str record "name") in
  if PyStr.nonempty name then
    Some {| e_name := name;
            e_entity_type := PyStr.strip (get_str record "entity_type");
            e_role_description :=
              PyStr.strip (get_str record "role_description");
            e_documents := int_or_zero (record !! "document_count");
            e_flights := int_or_zero (record !! "flight_count");
            e_emails := int_or_zero (record !! "email_count");
            e_slug := PyStr.strip (get_str record "slug");
            e_images := match_images image_index name |}
  else None.

(** The key of [processed.sort] in [process_entities]. *)
Definition entity_key (x : entity) : list Z := [e_flights x; e_documents x].

(** [process_entities]; [records] is [None] when the file is missing. *)
Definition process_entities (image_index : image_index_t)
  (records : option (list csv_row)) : option (list entity) :=
  match records with
  | None => None
  | Some records =>
      Some (sort_desc entity_key
              (omap (entity_of_record image_index) records))
  end.

(** [record.get(k1, record.get(k2, 0))] *)
Definition get_with_legacy (record : csv_row) (k1 k2 : string)
  : option (option string) :=
  match record !! k1 with
  | Some v => Some v
  | None => record !! k2
  end.

Definition yes_words : list string := ["yes"; "true"; "1"; "y"].

(** One turn of the loop of [process_persons_kaggle]. *)
Definition kaggle_of_record (image_index : image_index_t) (record : csv_row)
  : option kaggle :=
  let name :=
    PyStr.strip (PyStr.or_else (get_str record "Name")
                               (get_str record "Persons of Interest")) in
  if PyStr.nonempty name then
    Some {| k_name := name;
            k_bio := PyStr.strip (get_str record "Bio");
            k_flights :=
              int_or_zero (get_with_legacy record "Flights" "Number of flights");
            k_documents :=
              int_or_zero
                (get_with_legacy record "Documents" "Number of documents");
            k_connections := int_or_zero (record !! "Connections");
            k_in_black_book :=
              bool_decide
                (PyStr.lower (PyStr.strip (get_str record "In Black Book"))
                   ∈ yes_words);
            k_nationality :=
              PyStr.or_else (PyStr.strip (get_str record "Nationality"))
                            "Unknown";
            k_category :=
              PyStr.or_else (PyStr.strip (get_str record "Category"))
                            "Unknown";
            k_images := index_get image_index (PyStr.title name) |}
  else None.

(** The key of [processed.sort] in [process_persons_kaggle]. *)
Definition kaggle_key (x : kaggle) : list Z :=
  [k_connections x; k_flights x; k_documents x].

(** [process_persons_kaggle]; [None] when there is no supplementary file,
    else the rows of all files. *)
Definition process_persons_kaggle (image_index : image_index_t)
  (all_records : option (list csv_row)) : option (list kaggle) :=
  match all_records with
  | None => None
  | Some all_records =>
      Some (sort_desc kaggle_key
              (omap (kaggle_of_record image_index) all_records))
  end.

(** [round(f)] of a finite float: the nearest integer, the even one of
    the two when [f] is half way. *)
Definition round_half_even (q : Q) : Z :=
  let n := Qnum q in
  let d := Z.pos (Qden q) in
  let fl := n / d in
  let r := n mod d in
  if (2 * r <? d)%Z then fl
  else if (d <? 2 * r)%Z then fl + 1
  else if Z.even fl then fl else fl + 1.

(** [round(f)]: [ValueError] on a NaN, [OverflowError] on an infinity. *)
Definition py_round (f : pyfloat) : pyexn + Z :=
  match f with
  | Finite q => inr (round_half_even q)
  | Inf _ => inl OverflowError
  | NaN => inl ValueError
  end.

(** [int(f)] of a float: truncation towards zero. *)
Definition int_of_float (f : pyfloat) : pyexn + Z :=
  match f with
  | Finite q => inr (Z.quot (Qnum q) (Z.pos (Qden q)))
  | Inf _ => inl OverflowError
  | NaN => inl ValueError
  end.

Section Relationships.
(** [float(s)] of a string, [None] for [ValueError]; the conversion of
    a decimal literal to the nearest double is not modelled. *)
Variable py_float : string -> option pyfloat.

(** The strength of a relationship row. *)
Definition parse_strength (cell : option (option string)) : Z :=
  match cell with
  | Some (Some s) =>
      if PyStr.nonempty s then
        match PyStr.int_of_string s with
        | Some z => z
        | None =>
            match py_float s with
            | Some f =>
                match py_round f with
                | inr z => z
                | inl _ => 1
                end
            | None => 1
            end
        end
      else 1
  | _ => 1
  end.

(** One turn of the loop of [process_relationships]: the edge that is
    appended, if any. *)
Definition link_of_record (record : csv_row) : option link :=
  let entity_a := PyStr.strip (get_str record "entity_a") in
  let entity_b := PyStr.strip (get_str record "entity_b") in
  let rel_type := PyStr.strip (get_str record "relationship_type") in
  let strength := parse_strength (record !! "strength") in
  if PyStr.nonempty entity_a && PyStr.nonempty entity_b then
    Some {| l_source := entity_a; l_target := entity_b;
            l_type := rel_type; l_weight := strength |}
  else None.

Definition relationships_step (st : list link * gset string)
  (record : csv_row) : list link * gset string :=
  match link_of_record record with
  | Some l => ((st.1 ++ [l])%list, {[l_target l]} ∪ ({[l_source l]} ∪ st.2))
  | None => st
  end.

(** [process_relationships]; [records] is [None] when the file is
    missing. *)
Definition process_relationships (records : option (list csv_row))
  : option (list link * gset string) :=
  match records with
  | None => None
  | Some records => Some (foldl relationships_step ([], ∅) records)
  end.
End Relationships.

(** Truth value of a decoded JSON value. *)
Definition jtruthy (v : jval) : bool :=
  match v with
  | JNull => false
  | JBool b => b
  | JInt z => negb (z =? 0)%Z
  | JFloat (Finite q) => negb (Qnum q =? 0)%Z
  | JFloat _ => true
  | JStr s => PyStr.nonempty s
  | JOther b => b
  end.

(** [int(v)] *)
Definition int_of_jval (v : jval) : pyexn + Z :=
  match v with
  | JNull => inl TypeError
  | JBool b => inr (if b then 1 else 0)
  | JInt z => inr z
  | JFloat f => int_of_float f
  | JStr s =>
      match PyStr.int_of_string s with
      | Some z => inr z
      | None => inl ValueError
      end
  | JOther _ => inl TypeError
  end.

(** The importance of a document record ([process_documents]):
    [try: importance = int(record.get("importance_score", 0) or 0)
     except (ValueError, TypeError): pass]; another exception leaves the
    function. *)
Definition document_importance (record : gmap string jval) : pyexn + Z :=
  let v := default (JInt 0) (record !! "importance_score") in
  match int_of_jval (if jtruthy v then v else JInt 0) with
  | inr z => inr z
  | inl ValueError | inl TypeError => inr 0
  | inl e => inl e
  end.

(** ** Connection counts *)

(** [Counter.__getitem__] and [dict.get(k, 0)]. *)
Definition count_of (c : gmap string Z) (k : string) : Z :=
  default 0 (c !! k).

(** [c[k] += 1] *)
Definition incr (k : string) (c : gmap string Z) : gmap string Z :=
  <[k := count_of c k + 1]> c.

(** The body of the loop: [conn_counts[src] += 1] and
    [conn_counts[tgt] += 1]. *)
Definition count_step (conn_counts : gmap string Z) (link : link)
  : gmap string Z :=
  incr (l_target link) (incr (l_source link) conn_counts).

(** [count_connections_from_relationships] *)
Definition count_connections_from_relationships
  (relationships_data : option (list link * gset string)) : gmap string Z :=
  match relationships_data with
  | None => ∅
  | Some (rel_links, _) => foldl count_step ∅ rel_links
  end.

(** ** Entity merger *)

(** Truth value of a list that may be [None]. *)
Definition truthy {A : Type} (o : option (list A)) : bool :=
  match o with
  | Some (_ :: _) => true
  | _ => false
  end.

(** The elements iterated over; only used on a true value. *)
Definition items {A : Type} (o : option (list A)) : list A := default [] o.

(** A supplementary record kept as it is, after
    [p["connections"] = max(p.get("connections", 0),
                            connection_counts.get(p["name"], 0))]. *)
Definition raise_connections (connection_counts : gmap string Z) (p : kaggle)
  : person :=
  {| p_name := k_name p;
     p_entity_type := None;
     p_role_description := None;
     p_flights := k_flights p;
     p_documents := k_documents p;
     p_emails := None;
     p_connections :=
       Z.max (k_connections p) (count_of connection_counts (k_name p));
     p_in_black_book := k_in_black_book p;
     p_nationality := k_nationality p;
     p_category := k_category p;
     p_slug := None;
     p_bio := Some (k_bio p);
     p_images := k_images p |}.

(** The person made of a primary record when there is no supplementary
    source. *)
Definition person_of_entity (connection_counts : gmap string Z) (e : entity)
  : person :=
  {| p_name := e_name e;
     p_entity_type := Some (e_entity_type e);
     p_role_description := Some (e_role_description e);
     p_flights := e_flights e;
     p_documents := e_documents e;
     p_emails := Some (e_emails e);
     p_connections := count_of connection_counts (e_name e);
     p_in_black_book := false;
     p_nationality := "Unknown";
     p_category := e_entity_type e;
     p_slug := Some (e_slug e);
     p_bio := None;
     p_images := e_images e |}.

(** The person made of a primary record and its match, [None] standing
    for the empty dictionary of [kaggle_map.get(name_lower, {})]. *)
Definition merge_entity (connection_counts : gmap string Z)
  (kaggle_match : option kaggle) (e : entity) : person :=
  {| p_name := e_name e;
     p_entity_type := Some (e_entity_type e);
     p_role_description := Some (e_role_description e);
     p_flights := Z.max (e_flights e) (from_option k_flights 0 kaggle_match);
     p_documents :=
       Z.max (e_documents e) (from_option k_documents 0 kaggle_match);
     p_emails := Some (e_emails e);
     p_connections :=
       Z.max (count_of connection_counts (e_name e))
             (from_option k_connections 0 kaggle_match);
     p_in_black_book := from_option k_in_black_book false kaggle_match;
     p_nationality := from_option k_nationality "Unknown" kaggle_match;
     p_category := from_option k_category (e_entity_type e) kaggle_match;
     p_slug := Some (e_slug e);
     p_bio := None;
     p_images :=
       match e_images e with
       | [] => from_option k_images [] kaggle_match
       | imgs => imgs
       end |}.

(** [{p["name"].lower(): p for p in kaggle_data}]: a later record
    replaces an earlier one with the same key. *)
Definition build_kaggle_map (kaggle_data : list kaggle) : gmap string kaggle :=
  foldl (fun m p => <[PyStr.lower (k_name p) := p]> m) ∅ kaggle_data.

(** One turn of the loop over the primary records; the state is
    [(merged, seen)]. *)
Definition merge_step (connection_counts : gmap string Z)
  (kaggle_map : gmap string kaggle) (st : list person * gset string)
  (e : entity) : list person * gset string :=
  let name_lower := PyStr.lower (e_name e) in
  ((st.1 ++ [merge_entity connection_counts (kaggle_map !! name_lower) e])%list,
   {[name_lower]} ∪ st.2).

(** One turn of the loop that adds the supplementary-only records. *)
Definition kaggle_only_step (connection_counts : gmap string Z)
  (seen : gset string) (merged : list person) (p : kaggle) : list person :=
  if decide (PyStr.lower (k_name p) ∈ seen) then merged
  else (merged ++ [raise_connections connection_counts p])%list.

(** The list [merged] before it is sorted. *)
Definition merge_unsorted (connection_counts : gmap string Z)
  (entities_data : list entity) (kaggle_data : list kaggle) : list person :=
  let kaggle_map := build_kaggle_map kaggle_data in
  let st := foldl (merge_step connection_counts kaggle_map) ([], ∅)
                  entities_data in
  foldl (kaggle_only_step connection_counts st.2) st.1 kaggle_data.

(** The key of [merged.sort]. *)
Definition merge_key (x : person) : list Z := [p_flights x; p_documents x].

(** [merge_persons]; [connection_counts] is the dictionary after the
    default [{}] has replaced [None]. *)
Definition merge_persons (entities_data : option (list entity))
  (kaggle_data : option (list kaggle)) (connection_counts : gmap string Z)
  : list person :=
  if negb (truthy entities_data) then
    if truthy kaggle_data then
      map (raise_connections connection_counts) (items kaggle_data)
    else []
  else if negb (truthy kaggle_data) then
    map (person_of_entity connection_counts) (items entities_data)
  else
    sort_desc merge_key
      (merge_unsorted connection_counts (items entities_data)
                      (items kaggle_data)).

(** ** Network assembler *)

(** The node table: node ids to nodes, in insertion order. *)
Abbreviation node_table := (list (string * node)).

(** [name in nodes] *)
Definition has_node (tbl : node_table) (name : string) : bool :=
  existsb (fun kv => String.eqb kv.1 name) tbl.

(** [if name not in nodes: nodes[name] = n] *)
Definition add_node (tbl : node_table) (name : string) (n : node)
  : node_table :=
  if has_node tbl name then tbl else (tbl ++ [(name, n)])%list.

Definition person_node (p : person) : node :=
  {| n_id := p_name p;
     n_group := p_category p;
     n_flights := p_flights p;
     n_documents := p_documents p;
     n_connections := p_connections p;
     n_in_black_book := Some (p_in_black_book p);
     n_nationality := Some (p_nationality p);
     n_images := Some (p_images p) |}.

Definition stub_node (name group : string) : node :=
  {| n_id := name;
     n_group := group;
     n_flights := 0;
     n_documents := 0;
     n_connections := 0;
     n_in_black_book := None;
     n_nationality := None;
     n_images := None |}.

(** One turn of the loop over the persons. *)
Definition base_step (tbl : node_table) (p : person) : node_table :=
  add_node tbl (p_name p) (person_node p).

(** The loop over [persons_data[:300]]. *)
Definition base_nodes (persons_data : list person) : node_table :=
  foldl base_step [] (take 300 persons_data).

(** One turn of the loop over [rel_links[:1000]]; the state is
    [(nodes, links)]. *)
Definition rel_step (st : node_table * list link) (l : link)
  : node_table * list link :=
  let src := l_source l in
  let tgt := l_target l in
  let tbl := add_node st.1 src (stub_node src "Relationship") in
  let tbl := add_node tbl tgt (stub_node tgt "Relationship") in
  (tbl, (st.2 ++ [l])%list).

(** The pair counter: pairs to counts, in insertion order. *)
Abbreviation pair_counter := (list ((string * string) * Z)).

Definition pair_eqb (a b : string * string) : bool :=
  String.eqb a.1 b.1 && String.eqb a.2 b.2.

(** [co_occurrence[pair] += 1] *)
Fixpoint pair_incr (pair : string * string) (c : pair_counter)
  : pair_counter :=
  match c with
  | [] => [(pair, 1)]
  | (k, v) :: rest =>
      if pair_eqb k pair then (k, v + 1) :: rest
      else (k, v) :: pair_incr pair rest
  end.

(** [tuple(sorted([p1, p2]))] *)
Definition sorted_pair (p1 p2 : string) : string * string :=
  if PyStr.ltb p2 p1 then (p2, p1) else (p1, p2).

(** The passengers of a flight: the pieces that are longer than two
    characters once stripped, stripped and in title case. *)
Definition passengers_of (pax_str : string) : list string :=
  map (fun p => PyStr.title (PyStr.strip p))
      (List.filter
         (fun p => PyStr.nonempty (PyStr.strip p)
                   && (2 <? PyStr.len (PyStr.strip p))%Z)
         (PyStr.re_split pax_str)).

(** The body of the inner loop; the state is [(nodes, co_occurrence)]. *)
Definition pair_step (p1 : string) (st : node_table * pair_counter)
  (p2 : string) : node_table * pair_counter :=
  if String.eqb p1 p2 then st
  else
    let tbl := add_node st.1 p1 (stub_node p1 "Flight Passenger") in
    let tbl := add_node tbl p2 (stub_node p2 "Flight Passenger") in
    (tbl, pair_incr (sorted_pair p1 p2) st.2).

(** [for i, p1 in enumerate(pax): for p2 in pax[i + 1:]: ...] *)
Fixpoint pairs_loop (pax : list string) (st : node_table * pair_counter)
  : node_table * pair_counter :=
  match pax with
  | [] => st
  | p1 :: rest => pairs_loop rest (foldl (pair_step p1) st rest)
  end.

(** One turn of the loop over the flights. *)
Definition flight_step (st : node_table * pair_counter) (fl : flight)
  : node_table * pair_counter :=
  let pax_str := f_passengers fl in
  if PyStr.nonempty pax_str then pairs_loop (passengers_of pax_str) st
  else st.

(** [co_occurrence.most_common(n)]: the [n] largest counts, equal counts
    in insertion order. *)
Definition most_common (n : nat) (c : pair_counter) : pair_counter :=
  take n (sort_desc (fun kv => [kv.2]) c).

Definition co_link (kv : (string * string) * Z) : link :=
  {| l_source := kv.1.1; l_target := kv.1.2;
     l_type := "co-passenger"; l_weight := kv.2 |}.

(** Truth value of [relationships_data]: [None] is false, and the pair
    [(links, node_set)] is true also when its parts are empty. *)
Definition given {A : Type} (o : option A) : bool :=
  match o with
  | Some _ => true
  | None => false
  end.

(** The pair counter after the loop over the flights. *)
Definition co_occurrence_of (flight_data : list flight) : pair_counter :=
  (foldl flight_step ([], []) flight_data).2.

(** The edges made of the 500 most common pairs. *)
Definition co_links (flight_data : list flight) : list link :=
  map co_link (most_common 500 (co_occurrence_of flight_data)).

(** [build_network] *)
Definition build_network (persons_data : list person)
  (relationships_data : option (list link * gset string))
  (flight_data : option (list flight)) : network :=
  let tbl := base_nodes persons_data in
  let st :=
    match relationships_data with
    | Some (rel_links, _) => foldl rel_step (tbl, []) (take 1000 rel_links)
    | None => (tbl, [])
    end in
  let st :=
    if truthy flight_data && negb (given relationships_data) then
      let st' := foldl flight_step (st.1, []) (items flight_data) in
      (st'.1, (st.2 ++ map co_link (most_common 500 st'.2))%list)
    else st in
  {| nodes := map snd st.1; links := st.2 |}.

(** ** Definitions that follow the words of the specification *)

(** The number of edge ends at [n]: an edge counts once as a source and
    once as a target. *)
Definition incidence (E : list link) (n : string) : Z :=
  Z.of_nat (length (List.filter (fun l => String.eqb (l_source l) n) E))
  + Z.of_nat (length (List.filter (fun l => String.eqb (l_target l) n) E)).

(** Case-insensitive names of the three kinds of record. *)
Definition entity_names (P : list entity) : list string :=
  map (fun e => PyStr.lower (e_name e)) P.
Definition kaggle_names (S : list kaggle) : list string :=
  map (fun p => PyStr.lower (k_name p)) S.
Definition person_names (M : list person) : list string :=
  map (fun p => PyStr.lower (p_name p)) M.

(** [l] is in descending order of [key]: no element has a smaller key
    than a later one. *)
Definition sorted_desc {A : Type} (key : A -> list Z) (l : list A) : Prop :=
  StronglySorted (fun x y => lex_ltb (key x) (key y) = false) l.

(** The elements of [l] whose key is [k], in the order of [l]. *)
Definition with_key {A : Type} (key : A -> list Z) (k : list Z) (l : list A)
  : list A :=
  List.filter (fun x => bool_decide (key x = k)) l.

(** The count read from a cell: the integer the cell converts to, and 0
    when there is no cell or it does not convert. *)
Definition count_read (cell : option (option string)) (v : Z) : Prop :=
  match cell with
  | Some (Some s) =>
      match PyStr.int_of_string s with
      | Some z => v = z
      | None => v = 0
      end
  | _ => v = 0
  end.

(** [k in image_index] *)
Definition has_key (image_index : image_index_t) (k : string) : bool :=
  existsb (fun kv => String.eqb kv.1 k) image_index.

(** The lookup in the words of the claim: the entry of the canonical name
    when it is a key, else the entry of the first key that qualifies,
    else nothing. *)
Definition lookup_claimed (image_index : image_index_t) (name : string)
  : list image_ref :=
  let name_title := PyStr.title name in
  if has_key image_index name_title then index_get image_index name_title
  else
    match List.find (qualifies name_title) (map fst image_index) with
    | Some key => index_get image_index key
    | None => []
    end.

(** The lookup as amended: the entry of the canonical name when it has
    images; else, for a name of two tokens or more, the entry of the first
    key that qualifies; else nothing. *)
Definition lookup_amended (image_index : image_index_t) (name : string)
  : list image_ref :=
  let name_title := PyStr.title name in
  match index_get image_index name_title with
  | [] =>
      if (2 <=? length (PyStr.split name_title))%nat then
        match List.find (qualifies name_title) (map fst image_index) with
        | Some key => index_get image_index key
        | None => []
        end
      else []
  | images => images
  end.

(** ** Definitions for the proofs *)

(** The record the loop of the merger builds for a primary record. *)
Definition merged_of (C : gmap string Z) (km : gmap string kaggle)
  (e : entity) : person :=
  merge_entity C (km !! PyStr.lower (e_name e)) e.

(** The supplementary records that match no primary record. *)
Definition kaggle_only (P : list entity) (S : list kaggle) : list kaggle :=
  filter (fun p => PyStr.lower (k_name p) ∉ entity_names P) S.

(** What [add_node] appends. *)
Definition added (tbl : node_table) (name : string) (n : node)
  : node_table :=
  if has_node tbl name then [] else [(name, n)].

(** The entry of a person in the node table. *)
Definition base_entry (p : person) : string * node :=
  (p_name p, person_node p).

(** [kv] is a stub entry of group [group]. *)
Definition stub_entry (group : string) (kv : string * node) : Prop :=
  kv.2 = stub_node kv.1 group.

(** A stub node: no counts, and one of the two group labels. *)
Definition is_stub (n : node) : Prop :=
  n = stub_node (n_id n) "Relationship"
  \/ n = stub_node (n_id n) "Flight Passenger".

(** [name] is an end of [l]. *)
Definition end_of (name : string) (l : link) : Prop :=
  name = l_source l \/ name = l_target l.

(** The pairs counted in [c]. *)
Definition pairs_of (c : pair_counter) : list (string * string) :=
  map fst c.

(** [name] is one of the two passengers of [pr]. *)
Definition member_of (name : string) (pr : string * string) : Prop :=
  name = pr.1 \/ name = pr.2.

(** The entries added during the loops over the flights are stubs of
    passengers of a counted pair. *)
Definition flight_stub (c : pair_counter) (kv : string * node) : Prop :=
  stub_entry "Flight Passenger" kv
  /\ exists pr, pr ∈ pairs_of c /\ member_of kv.1 pr.

(** [st'] comes from [st] by appending stubs, the pairs only growing. *)
Definition grows (st st' : node_table * pair_counter) : Prop :=
  (exists new : node_table,
      st'.1 = (st.1 ++ new)%list /\ Forall (flight_stub st'.2) new)
  /\ (forall k, k ∈ pairs_of st.2 -> k ∈ pairs_of st'.2).

(** The counter that [f] gives does not depend on the node table. *)
Definition same_counter
  (f : node_table * pair_counter -> node_table * pair_counter) : Prop :=
  forall tbl tbl' c, (f (tbl, c)).2 = (f (tbl', c)).2.

(** ** Sample data *)

Definition edge (a b : string) (w : Z) : link :=
  {| l_source := a; l_target := b; l_type := ""; l_weight := w |}.

Definition ent (name : string) (flights documents : Z) : entity :=
  {| e_name := name; e_entity_type := "person"; e_role_description := "";
     e_documents := documents; e_flights := flights; e_emails := 0;
     e_slug := ""; e_images := [] |}.

Definition kag (name : string) (flights documents connections : Z) : kaggle :=
  {| k_name := name; k_bio := ""; k_flights := flights;
     k_documents := documents; k_connections := connections;
     k_in_black_book := false; k_nationality := "Unknown";
     k_category := "Unknown"; k_images := [] |}.

(** A cell of a row. *)
Definition cell (k v : string) : string * option string := (k, Some v).

Definition on_flight (passengers : string) : flight :=
  {| f_date := ""; f_year := ""; f_departure := ""; f_departure_code := "";
     f_arrival := ""; f_arrival_code := ""; f_aircraft := ""; f_pilot := "";
     f_passengers := passengers |}.

(** A person known by a number. *)
Definition numbered (i : nat) : person :=
  {| p_name := "person " +:+ pretty i;
     p_entity_type := None; p_role_description := None;
     p_flights := 0; p_documents := 0; p_emails := None;
     p_connections := 0; p_in_black_book := false;
     p_nationality := "Unknown"; p_category := "Unknown";
     p_slug := None; p_bio := None; p_images := [] |}.

Definition photo (file : string) : image_ref :=
  {| path := "images/persons/" +:+ file; filename := file;
     img_category := "persons"; size_bytes := 1024 |}.

(** Goals that are decided by evaluation. *)
Ltac by_computation := apply (bool_decide_unpack _); vm_compute; exact I.
Ltac refuted_by_computation :=
  apply (proj1 (bool_decide_eq_false _)); vm_compute; reflexivity.

(** Equality of records is decidable. *)
#[global] Instance image_ref_eq_dec : EqDecision image_ref.
Proof. solve_decision. Defined.
#[global] Instance entity_eq_dec : EqDecision entity.
Proof. solve_decision. Defined.
#[global] Instance kaggle_eq_dec : EqDecision kaggle.
Proof. solve_decision. Defined.
#[global] Instance person_eq_dec : EqDecision person.
Proof. solve_decision. Defined.
#[global] Instance link_eq_dec : EqDecision link.
Proof. solve_decision. Defined.
#[global] Instance node_eq_dec : EqDecision node.
Proof. solve_decision. Defined.

(** ** Definitions for the further properties *)

(** [sum(c.values())] *)
Definition total (c : gmap string Z) : Z :=
  map_fold (fun _ v acc => v + acc) 0 c.

(** A string without white space at its ends. *)
Definition stripped (s : string) : Prop :=
  PyStr.lstrip s = s /\ PyStr.rstrip s = s.

(** The ends of a list of edges. *)
Definition ends_of (ls : list link) : gset string :=
  list_to_set (map l_source ls) ∪ list_to_set (map l_target ls).

(** A node table is well formed: its keys are pairwise distinct and every
    node is filed under its id. *)
Definition table_ok (tbl : node_table) : Prop :=
  NoDup (map fst tbl) /\ Forall (fun kv => n_id kv.2 = kv.1) tbl.

(** The ends of the edges kept so far are in the node table. *)
Definition ends_in (s : node_table * list link) : Prop :=
  Forall (fun l => l_source l ∈ map fst s.1 /\ l_target l ∈ map fst s.1) s.2.

(** The characters of a string. *)
Definition chars_of (s : string) : list ascii := list_ascii_of_string s.

(** Both passengers of every counted pair are in the node table. *)
Definition pairs_in (st : node_table * pair_counter) : Prop :=
  Forall (fun pr => pr.1 ∈ map fst st.1 /\ pr.2 ∈ map fst st.1)
         (pairs_of st.2).

(** A pair counter is well formed: its pairs are pairwise distinct, each
    is in ascending order, and each count is positive. *)
Definition counter_ok (c : pair_counter) : Prop :=
  NoDup (pairs_of c)
  /\ Forall (fun kv => PyStr.ltb kv.1.1 kv.1.2 = true /\ 1 <= kv.2) c.

(** ** Flights and emails *)

(** The code points of a string, the key by which Python orders strings. *)
Definition codes (s : string) : list Z :=
  map (fun c => Z.of_N (N_of_ascii c)) (list_ascii_of_string s).

Section SortAsc.
Context {A : Type} (key : A -> list Z).

(** [x] is put in front of the first element whose key is not smaller. *)
Fixpoint insert_asc (x : A) (l : list A) : list A :=
  match l with
  | [] => [x]
  | y :: l' =>
      if lex_ltb (key y) (key x) then y :: insert_asc x l'
      else x :: y :: l'
  end.

(** [list.sort(key=...)]: ascending and stable. *)
Definition sort_asc (l : list A) : list A := foldr insert_asc [] l.
End SortAsc.

(** [s.lstrip(chars)], [s.rstrip(chars)] and [s.strip(chars)], the set of
    characters being given by its test. *)
Fixpoint lstrip_by (p : ascii -> bool) (s : string) : string :=
  match s with
  | EmptyString => EmptyString
  | String c r => if p c then lstrip_by p r else s
  end.

Fixpoint rstrip_by (p : ascii -> bool) (s : string) : string :=
  match s with
  | EmptyString => EmptyString
  | String c r =>
      match rstrip_by p r with
      | EmptyString => if p c then EmptyString else String c EmptyString
      | r' => String c r'
      end
  end.

Definition strip_by (p : ascii -> bool) (s : string) : string :=
  rstrip_by p (lstrip_by p s).

(** The characters that the flights strip off the passengers cell: the
    two square brackets, the double quote and the single quote. *)
Definition is_bracket_or_quote (c : ascii) : bool :=
  let n := PyStr.code c in
  ((n =? 91) || (n =? 93) || (n =? 34) || (n =? 39))%N.

(** The single quote and the double quote. *)
Definition is_quote (c : ascii) : bool :=
  let n := PyStr.code c in ((n =? 39) || (n =? 34))%N.

(** A match of [(19|20)\d{2}] at the start of [s]. *)
Definition year_at (s : string) : option string :=
  match s with
  | String a (String b (String c (String d _))) =>
      if (((PyStr.code a =? 49) && (PyStr.code b =? 57))
          || ((PyStr.code a =? 50) && (PyStr.code b =? 48)))%N
         && PyStr.is_digit c && PyStr.is_digit d
      then Some (String a (String b (String c (String d EmptyString))))
      else None
  | _ => None
  end.

(** [re.search(r"(19|20)\d{2}", s)]: the leftmost match, if any. *)
Fixpoint search_year (s : string) : option string :=
  match year_at s with
  | Some y => Some y
  | None =>
      match s with
      | EmptyString => None
      | String _ r => search_year r
      end
  end.

(** [(record.get(k1, "") or record.get(k2, "") or "")] *)
Definition get_str2 (r : csv_row) (k1 k2 : string) : string :=
  PyStr.or_else (get_str r k1) (get_str r k2).

(** [f"{name} ({code})" if code and name else (name or code or "")] *)
Definition display (name code : string) : string :=
  if PyStr.nonempty code && PyStr.nonempty name then
    name +:+ " (" +:+ code +:+ ")"
  else PyStr.or_else name (PyStr.or_else code "").

(** One turn of the loop of [process_flights]; a cell of a row is a
    string, so the passengers are the stripped cell. *)
Definition flight_of_record (record : csv_row) : flight :=
  let date := PyStr.strip (get_str record "flight_date") in
  let dep_code := PyStr.strip (get_str record "departure_airport_code") in
  let dep_name := PyStr.strip (get_str record "departure_airport") in
  let arr_code := PyStr.strip (get_str record "arrival_airport_code") in
  let arr_name := PyStr.strip (get_str record "arrival_airport") in
  {| f_date := date;
     f_year :=
       if PyStr.nonempty date then default "" (search_year date) else "";
     f_departure := display dep_name dep_code;
     f_departure_code := dep_code;
     f_arrival := display arr_name arr_code;
     f_arrival_code := arr_code;
     f_aircraft :=
       PyStr.strip (get_str2 record "aircraft_tail_number" "aircraft_id");
     f_pilot := PyStr.strip (get_str2 record "pilot_name" "pilot");
     f_passengers :=
       strip_by is_bracket_or_quote
         (PyStr.strip (get_str record "passenger_names")) |}.

(** The key of [processed.sort] in [process_flights]. *)
Definition flight_key (x : flight) : list Z := codes (f_date x).

(** [process_flights]; [records] is [None] when the file is missing. *)
Definition process_flights (records : option (list csv_row))
  : option (list flight) :=
  match records with
  | None => None
  | Some records => Some (sort_asc flight_key (map flight_of_record records))
  end.

(** Record of [process_emails]. *)
Record email := {
  m_date : string;
  m_from : string;
  m_to : string;
  m_subject : string;
  m_slug : string
}.

(** One turn of the loop of [process_emails]; [None] when the entry is
    not appended. *)
Definition email_of_record (record : csv_row) : option email :=
  let entry :=
    {| m_date := PyStr.strip (get_str record "date");
       m_from := PyStr.strip (get_str record "from");
       m_to := PyStr.strip (get_str record "to");
       m_subject := PyStr.strip (get_str record "subject");
       m_slug := PyStr.strip (get_str record "slug") |} in
  if PyStr.nonempty (m_from entry) || PyStr.nonempty (m_to entry)
  then Some entry else None.

(** The key of [processed.sort] in [process_emails]. *)
Definition email_key (x : email) : list Z := codes (m_date x).

(** [process_emails]; [records] is [None] when the file is missing. *)
Definition process_emails (records : option (list csv_row))
  : option (list email) :=
  match records with
  | None => None
  | Some records => Some (sort_asc email_key (omap email_of_record records))
  end.

(** [l] is in ascending order of [key]: no element has a greater key than
    a later one. *)
Definition sorted_asc {A : Type} (key : A -> list Z) (l : list A) : Prop :=
  StronglySorted (fun x y => lex_ltb (key y) (key x) = false) l.

(** [s] starts with "19" or "20" followed by two digits, and has these
    four characters only. *)
Definition is_year (y : string) : Prop :=
  exists a b c d : ascii,
    y = String a (String b (String c (String d EmptyString)))
    /\ ((a = "1"%char /\ b = "9"%char) \/ (a = "2"%char /\ b = "0"%char))
    /\ PyStr.is_digit c = true /\ PyStr.is_digit d = true.


(** ** Summary statistics *)

(** A [Counter] over strings: the keys in the order of their first
    count. *)
Abbreviation str_counter := (list (string * Z)).

(** [c[k] += 1] *)
Fixpoint str_incr (k : string) (c : str_counter) : str_counter :=
  match c with
  | [] => [(k, 1)]
  | (k', v) :: rest =>
      if String.eqb k' k then (k', v + 1) :: rest
      else (k', v) :: str_incr k rest
  end.

(** [Counter(xs)] *)
Definition counter_of (xs : list string) : str_counter :=
  foldl (fun c x => str_incr x c) [] xs.

(** [c.most_common(n)]: the [n] largest counts, equal counts in the order
    of the counter. *)
Definition str_most_common (n : nat) (c : str_counter) : str_counter :=
  take n (sort_desc (fun kv => [kv.2]) c).

(** The order of the pairs [(key, count)]: by the key, then by the count;
    no code point is below 0, so the end of a key comes first. *)
Definition item_key (kv : string * Z) : list Z := codes kv.1 ++ [-1; kv.2].

(** [sorted(c.items())] *)
Definition sorted_items (c : str_counter) : str_counter :=
  sort_asc item_key c.

(** [persons_stats["nationalities"]] of [generate_summary]. *)
Definition nationalities (persons_data : list person) : str_counter :=
  str_most_common 20
    (counter_of
       (map p_nationality
          (List.filter (fun p => PyStr.nonempty (p_nationality p))
             persons_data))).

(** [persons_stats["categories"]] *)
Definition categories (persons_data : list person) : str_counter :=
  str_most_common 20 (counter_of (map p_category persons_data)).

(** [persons_stats["top_by_flights"]] *)
Definition top_by_flights (persons_data : list person) : list (string * Z) :=
  map (fun p => (p_name p, p_flights p))
    (List.filter (fun p => (0 <? p_flights p)%Z)
       (take 15 (sort_desc (fun x => [p_flights x]) persons_data))).

(** [persons_stats["top_by_connections"]] *)
Definition top_by_connections (persons_data : list person)
  : list (string * Z) :=
  map (fun p => (p_name p, p_connections p))
    (take 15 (sort_desc (fun x => [p_connections x]) persons_data)).

(** The years counted for [flight_stats["by_year"]]. *)
Definition flight_years (flight_data : list flight) : list string :=
  map f_year (List.filter (fun f => PyStr.nonempty (f_year f)) flight_data).

(** [flight_stats["by_year"]] *)
Definition flights_by_year (flight_data : list flight) : str_counter :=
  sorted_items (counter_of (flight_years flight_data)).

(** The years counted for [email_stats["by_year"]]. *)
Definition email_years (email_data : list email) : list string :=
  omap (fun e => search_year (m_date e)) email_data.

(** [email_stats["by_year"]] *)
Definition emails_by_year (email_data : list email) : str_counter :=
  sorted_items (counter_of (email_years email_data)).

(** [f"{(score // 10) * 10}-{(score // 10) * 10 + 9}"] *)
Definition bucket (score : Z) : string :=
  pretty (score / 10 * 10) +:+ "-" +:+ pretty (score / 10 * 10 + 9).

(** [document_stats["importance_distribution"]], from the importance
    scores of the documents in their order. *)
Definition importance_distribution (scores : list Z) : str_counter :=
  sorted_items (counter_of (map bucket scores)).

(** The number of times [k] is in [xs]. *)
Definition occurrences (k : string) (xs : list string) : Z :=
  Z.of_nat (length (List.filter (String.eqb k) xs)).

(** [Counter.__getitem__] *)
Fixpoint count_in (c : str_counter) (k : string) : Z :=
  match c with
  | [] => 0
  | (k', v) :: rest => if String.eqb k' k then v else count_in rest k
  end.

(** [t] is a table of frequencies in [xs]: its keys are pairwise distinct
    values of [xs], each with the number of times it is in [xs]. *)
Definition frequencies_in (xs : list string) (t : str_counter) : Prop :=
  NoDup (map fst t)
  /\ Forall (fun kv => kv.1 ∈ xs /\ kv.2 = occurrences kv.1 xs) t.

(** [t] is a table of the [n] most frequent values of [xs]: a table of
    frequencies in descending order of at most [n] rows, and when a value
    of [xs] is left out the table has [n] rows, none less frequent than
    that value. *)
Definition top_table (n : nat) (xs : list string) (t : str_counter) : Prop :=
  frequencies_in xs t
  /\ sorted_desc (fun kv => [kv.2]) t
  /\ (length t <= n)%nat
  /\ (forall k : string,
         k ∈ xs -> k ∉ map fst t ->
         length t = n /\ Forall (fun kv => occurrences k xs <= kv.2) t).

(** [t] is the full table of frequencies in [xs], in strictly ascending
    order of its keys. *)
Definition full_table (xs : list string) (t : str_counter) : Prop :=
  frequencies_in xs t
  /\ (forall k : string, k ∈ xs -> k ∈ map fst t)
  /\ StronglySorted (fun a b => PyStr.ltb a.1 b.1 = true) t.

(** The sum of the counts of a table. *)
Definition sum_counts (t : str_counter) : Z :=
  foldr (fun kv acc => kv.2 + acc) 0 t.

(** A string without the sign of a negative number. *)
Definition no_dash (s : string) : Prop :=
  Forall (fun c => c <> "-"%char) (chars_of s).

(** ** Image files and the keys of the image index

    [safe_filename] and the key of [build_image_index] in
    [sync_images.py]; the same key is built in [download_data.py]. *)











(** * Properties *)

(** ** Python string primitives *)

Example title_ex : PyStr.title "jane a. o'neil-DOE" = "Jane A. O'Neil-Doe".
Proof. reflexivity. Qed.
Example strip_ex : PyStr.strip "  a b  " = "a b".
Proof. reflexivity. Qed.
Example split_ex : PyStr.split "  Jane   A. Doe " = ["Jane"; "A."; "Doe"].
Proof. reflexivity. Qed.
Example re_split_ex : PyStr.re_split ",a,;b&" = [""; "a"; "b"; ""].
Proof. reflexivity. Qed.
Example int_ex1 : PyStr.int_of_string " -1_000 " = Some (-1000).
Proof. reflexivity. Qed.
Example int_ex2 : PyStr.int_of_string "1__0" = None.
Proof. reflexivity. Qed.
Example int_ex3 : PyStr.int_of_string "12.5" = None.
Proof. reflexivity. Qed.
Example contains_ex : PyStr.contains "Doe" "Mary Jane Doe" = true.
Proof. reflexivity. Qed.

(** ** The stable descending sort *)

Section SortFacts.
Context {A : Type} (key : A -> list Z).

Lemma lex_ltb_irrefl (a : list Z) : lex_ltb a a = false.
Proof.
  induction a as [|x a IH]; simpl; [done|].
  rewrite IH, Z.ltb_irrefl, Z.eqb_refl. done.
Qed.

Lemma lex_ltb_false_trans (a b c : list Z) :
  lex_ltb a b = false -> lex_ltb b c = false -> lex_ltb a c = false.
Proof.
  revert b c. induction a as [|x a IH]; intros [|y b] [|z c]; simpl;
    try done.
  intros [H1 H1']%orb_false_iff [H2 H2']%orb_false_iff.
  apply Z.ltb_ge in H1. apply Z.ltb_ge in H2.
  apply orb_false_iff. split; [apply Z.ltb_ge; lia|].
  destruct (Z.eqb_spec x z) as [->|Hne]; [|done]. simpl.
  assert (y = z) as -> by lia.
  rewrite Z.eqb_refl in H1', H2'. simpl in *. eauto.
Qed.

Lemma lex_ltb_true_false (a b : list Z) :
  lex_ltb a b = true -> lex_ltb b a = false.
Proof.
  revert b. induction a as [|x a IH]; intros [|y b]; simpl; try done.
  intros H. apply orb_true_iff in H as [H|H].
  - apply Z.ltb_lt in H. apply orb_false_iff. split.
    + apply Z.ltb_ge. lia.
    + destruct (Z.eqb_spec y x); [lia|done].
  - apply andb_true_iff in H as [H1 H2]. apply Z.eqb_eq in H1 as ->.
    rewrite Z.ltb_irrefl, Z.eqb_refl. simpl. auto.
Qed.

Lemma insert_desc_perm (x : A) (l : list A) :
  Permutation (insert_desc key x l) (x :: l).
Proof.
  induction l as [|y l IH]; simpl; [done|].
  destruct (lex_ltb (key x) (key y)); [|done].
  rewrite IH. apply perm_swap.
Qed.

Lemma sort_desc_perm (l : list A) : Permutation (sort_desc key l) l.
Proof.
  induction l as [|x l IH]; simpl; [done|].
  unfold sort_desc in *. simpl. rewrite insert_desc_perm. by constructor.
Qed.

Lemma insert_desc_sorted (x : A) (l : list A) :
  sorted_desc key l -> sorted_desc key (insert_desc key x l).
Proof.
  unfold sorted_desc. induction 1 as [|y l Hs IH Hy]; simpl.
  - repeat constructor.
  - destruct (lex_ltb (key x) (key y)) eqn:Hxy.
    + constructor; [done|].
      rewrite insert_desc_perm. constructor; [|done].
      by apply lex_ltb_true_false.
    + constructor; [by constructor|].
      constructor; [done|].
      eapply Forall_impl; [exact Hy|]. intros z Hz. simpl in Hz.
      by eapply lex_ltb_false_trans.
Qed.

Lemma sort_desc_sorted (l : list A) : sorted_desc key (sort_desc key l).
Proof.
  induction l as [|x l IH]; [constructor|].
  by apply insert_desc_sorted.
Qed.

Lemma insert_desc_with_key (k : list Z) (x : A) (l : list A) :
  with_key key k (insert_desc key x l) = with_key key k (x :: l).
Proof.
  unfold with_key. induction l as [|y l IH]; simpl; [done|].
  destruct (lex_ltb (key x) (key y)) eqn:Hxy; [|done].
  simpl. rewrite IH. simpl.
  destruct (bool_decide (key y = k)) eqn:Hy,
           (bool_decide (key x = k)) eqn:Hx; try done.
  apply bool_decide_eq_true in Hy, Hx.
  rewrite Hy, Hx, lex_ltb_irrefl in Hxy. done.
Qed.

Lemma sort_desc_stable (k : list Z) (l : list A) :
  with_key key k (sort_desc key l) = with_key key k l.
Proof.
  induction l as [|x l IH]; [done|].
  change (sort_desc key (x :: l))
    with (insert_desc key x (sort_desc key l)).
  rewrite insert_desc_with_key. unfold with_key in *. simpl.
  by rewrite IH.
Qed.

Lemma sort_desc_elem_of (x : A) (l : list A) :
  x ∈ sort_desc key l <-> x ∈ l.
Proof. by rewrite sort_desc_perm. Qed.

Lemma sort_desc_length (l : list A) : length (sort_desc key l) = length l.
Proof. by rewrite sort_desc_perm. Qed.
End SortFacts.

(** ** Connection counts *)

Section Counting.
Implicit Types (c : gmap string Z) (E : list link) (n k : string).

Lemma count_of_incr c k n :
  count_of (incr k c) n = count_of c n + (if String.eqb k n then 1 else 0).
Proof.
  unfold incr, count_of.
  destruct (String.eqb_spec k n) as [->|Hne].
  - by rewrite lookup_insert_eq.
  - rewrite lookup_insert_ne by done. lia.
Qed.

Lemma count_fold c E n :
  count_of (foldl count_step c E) n = count_of c n + incidence E n.
Proof.
  revert c. induction E as [|l E IH]; intros c; simpl.
  - unfold incidence. simpl. lia.
  - rewrite IH. unfold count_step. rewrite !count_of_incr.
    unfold incidence. simpl.
    destruct (String.eqb (l_source l) n), (String.eqb (l_target l) n);
      simpl; lia.
Qed.


Lemma dom_incr c k : dom (incr k c) = {[k]} ∪ dom c.
Proof. unfold incr. by rewrite dom_insert_L. Qed.

Lemma count_fold_dom c E n :
  n ∈ dom (foldl count_step c E)
  <-> n ∈ dom c \/ exists l, l ∈ E /\ (l_source l = n \/ l_target l = n).
Proof.
  revert c. induction E as [|l E IH]; intros c; simpl.
  - split; [auto|]. intros [?|(l & Hl & _)]; [done|]. by inversion Hl.
  - rewrite IH. unfold count_step. rewrite !dom_incr.
    rewrite !elem_of_union, !elem_of_singleton. split.
    + intros [[->|[->|?]]|(l' & Hl' & H)]; eauto.
      * right. exists l. split; [left|]; auto.
      * right. exists l. split; [left|]; auto.
      * right. exists l'. split; [by right|]; auto.
    + intros [?|(l' & Hl' & H)]; [by auto|].
      apply elem_of_cons in Hl' as [->|Hl'].
      * left. destruct H as [<-|<-]; auto.
      * right. eauto.
Qed.
End Counting.


(** ** Entity merger *)

Lemma NoDup_map_inj_on {A B : Type} (f : A -> B) (l : list A) (x y : A) :
  NoDup (map f l) -> x ∈ l -> y ∈ l -> f x = f y -> x = y.
Proof.
  induction l as [|a l IH]; simpl; [by inversion 2|].
  intros [Ha Hnd]%NoDup_cons [->|Hx]%elem_of_cons [->|Hy]%elem_of_cons Hf;
    auto.
  - destruct Ha. rewrite Hf. by apply list_elem_of_fmap_2.
  - destruct Ha. rewrite <- Hf. by apply list_elem_of_fmap_2.
Qed.

Section Merging.
Variable C : gmap string Z.
Implicit Types (P : list entity) (S : list kaggle) (e : entity)
  (p : kaggle) (n : string).

Lemma merge_step_fold km P acc (seen : gset string) :
  foldl (merge_step C km) (acc, seen) P
  = ((acc ++ map (merged_of C km) P)%list,
     list_to_set (entity_names P) ∪ seen).
Proof.
  revert acc seen. induction P as [|e P IH]; intros acc seen; simpl.
  - rewrite app_nil_r. f_equal. set_solver.
  - unfold merge_step at 2. simpl. rewrite IH.
    rewrite <- app_assoc. simpl. f_equal. set_solver.
Qed.

Lemma kaggle_only_fold (seen : gset string) S acc :
  foldl (kaggle_only_step C seen) acc S
  = (acc ++ map (raise_connections C)
                (filter (fun p => PyStr.lower (k_name p) ∉ seen) S))%list.
Proof.
  revert acc. induction S as [|p S IH]; intros acc; simpl.
  - by rewrite app_nil_r.
  - rewrite IH. unfold kaggle_only_step.
    rewrite filter_cons. destruct (decide (_ ∈ seen)) as [Hin|Hin].
    + by rewrite decide_False by auto.
    + rewrite decide_True by done. simpl. by rewrite <- app_assoc.
Qed.

Lemma merge_unsorted_eq P S :
  merge_unsorted C P S
  = (map (merged_of C (build_kaggle_map S)) P
     ++ map (raise_connections C) (kaggle_only P S))%list.
Proof.
  unfold merge_unsorted. rewrite merge_step_fold. simpl.
  rewrite kaggle_only_fold. f_equal. f_equal. unfold kaggle_only.
  apply list_filter_iff. intros p.
  rewrite elem_of_union, elem_of_list_to_set.
  split; [by auto|]. intros H [?|H']; [done|].
  by apply not_elem_of_empty in H'.
Qed.

Lemma kaggle_map_fold S (m : gmap string kaggle) n :
  foldl (fun m p => <[PyStr.lower (k_name p) := p]> m) m S !! n
  = match last (filter (fun p => PyStr.lower (k_name p) = n) S) with
    | Some p => Some p
    | None => m !! n
    end.
Proof.
  revert m. induction S as [|p S IH]; intros m; simpl; [done|].
  rewrite IH, filter_cons. destruct (decide (_ = n)) as [Heq|Hne].
  - destruct (filter _ S) as [|p' l] eqn:Hf; simpl.
    + by rewrite <- Heq, lookup_insert_eq.
    + destruct (last (p' :: l)) eqn:Hl; [done|].
      by apply last_None in Hl.
  - destruct (last _); [done|]. by rewrite lookup_insert_ne.
Qed.

(** The match of a name is the last supplementary record that bears
    it. *)
Lemma kaggle_map_lookup S n :
  build_kaggle_map S !! n
  = last (filter (fun p => PyStr.lower (k_name p) = n) S).
Proof.
  unfold build_kaggle_map. rewrite kaggle_map_fold.
  by destruct (last _).
Qed.

Lemma kaggle_map_Some S n p :
  build_kaggle_map S !! n = Some p -> p ∈ S /\ PyStr.lower (k_name p) = n.
Proof.
  rewrite kaggle_map_lookup. intros H.
  assert (p ∈ filter (fun p => PyStr.lower (k_name p) = n) S) as Hin.
  { destruct (filter _ S) as [|x l] using rev_ind; [done|].
    rewrite last_snoc in H. injection H as ->. set_solver. }
  by apply list_elem_of_filter in Hin as [? ?].
Qed.

Lemma kaggle_map_is_Some S p :
  p ∈ S -> is_Some (build_kaggle_map S !! PyStr.lower (k_name p)).
Proof.
  intros Hin. rewrite kaggle_map_lookup.
  assert (p ∈ filter (fun p' => PyStr.lower (k_name p')
                                = PyStr.lower (k_name p)) S) as Hf.
  { by apply list_elem_of_filter. }
  destruct (filter _ S) as [|x l] using rev_ind; [by inversion Hf|].
  rewrite last_snoc. eauto.
Qed.

Lemma kaggle_map_NoDup S p :
  NoDup (kaggle_names S) -> p ∈ S ->
  build_kaggle_map S !! PyStr.lower (k_name p) = Some p.
Proof.
  intros Hnd Hin.
  destruct (kaggle_map_is_Some S p Hin) as [p' Hp']. rewrite Hp'.
  apply kaggle_map_Some in Hp' as [Hin' Heq]. f_equal.
  by eapply (NoDup_map_inj_on (fun p => PyStr.lower (k_name p))).
Qed.
End Merging.

Section MergeFacts.
Variable C : gmap string Z.
Implicit Types (P : list entity) (S : list kaggle) (e : entity)
  (p : kaggle) (r : person) (n : string).

(** [merge_persons] by the emptiness of its two sources. *)
Lemma merge_persons_cases (Pd : option (list entity))
  (Sd : option (list kaggle)) :
  merge_persons Pd Sd C
  = match items Pd, items Sd with
    | [], K => map (raise_connections C) K
    | E, [] => map (person_of_entity C) E
    | E, K => sort_desc merge_key (merge_unsorted C E K)
    end.
Proof.
  unfold merge_persons.
  destruct Pd as [[|e P]|], Sd as [[|p S]|]; reflexivity.
Qed.

Lemma truthy_items {A : Type} (o : option (list A)) :
  truthy o = true <-> items o <> [].
Proof. destruct o as [[|x l]|]; simpl; split; congruence. Qed.

Lemma merge_persons_both (Pd : option (list entity))
  (Sd : option (list kaggle)) :
  truthy Pd = true -> truthy Sd = true ->
  merge_persons Pd Sd C
  = sort_desc merge_key (merge_unsorted C (items Pd) (items Sd)).
Proof.
  unfold merge_persons. by intros -> ->.
Qed.

Lemma person_names_unsorted P S :
  person_names (merge_unsorted C P S)
  = (entity_names P ++ kaggle_names (kaggle_only P S))%list.
Proof.
  rewrite merge_unsorted_eq. unfold person_names, entity_names, kaggle_names.
  rewrite map_app, !map_map. done.
Qed.

Lemma kaggle_only_elem P S p :
  p ∈ kaggle_only P S
  <-> (PyStr.lower (k_name p) ∉ entity_names P) /\ (p ∈ S).
Proof. unfold kaggle_only. by rewrite list_elem_of_filter. Qed.

Lemma kaggle_only_names_NoDup P S :
  NoDup (kaggle_names S) -> NoDup (kaggle_names (kaggle_only P S)).
Proof.
  unfold kaggle_names, kaggle_only.
  induction S as [|p S IH]; simpl; [done|].
  intros [Hp Hnd]%NoDup_cons. rewrite filter_cons.
  destruct (decide _); simpl; [|by auto].
  apply NoDup_cons. split; [|by auto].
  intros (p' & Heq & Hin)%list_elem_of_fmap.
  apply list_elem_of_filter in Hin as [_ Hin].
  apply Hp. rewrite Heq.
  by apply (list_elem_of_fmap_2 (fun p => PyStr.lower (k_name p)) S p').
Qed.

Lemma unsorted_names_elem P S n :
  n ∈ person_names (merge_unsorted C P S)
  <-> n ∈ entity_names P \/ n ∈ kaggle_names S.
Proof.
  rewrite person_names_unsorted, elem_of_app. split.
  - intros [?|(p & -> & Hin)%list_elem_of_fmap]; [by left|].
    apply kaggle_only_elem in Hin as [_ Hin].
    right.
    by apply (list_elem_of_fmap_2 (fun p => PyStr.lower (k_name p)) S p).
  - intros [?|(p & -> & Hin)%list_elem_of_fmap]; [by left|].
    destruct (decide (PyStr.lower (k_name p) ∈ entity_names P)); [by left|].
    right.
    apply (list_elem_of_fmap_2 (fun p => PyStr.lower (k_name p))
             (kaggle_only P S) p).
    by apply kaggle_only_elem.
Qed.

Lemma unsorted_names_NoDup P S :
  NoDup (entity_names P) -> NoDup (kaggle_names S) ->
  NoDup (person_names (merge_unsorted C P S)).
Proof.
  intros HP HS. rewrite person_names_unsorted. apply NoDup_app.
  split; [done|]. split; [|by apply kaggle_only_names_NoDup].
  intros n Hn (p & -> & Hin)%list_elem_of_fmap.
  by apply kaggle_only_elem in Hin as [Hno _].
Qed.

Lemma person_names_raise S :
  person_names (map (raise_connections C) S) = kaggle_names S.
Proof. unfold person_names, kaggle_names. by rewrite map_map. Qed.

Lemma person_names_of_entity P :
  person_names (map (person_of_entity C) P) = entity_names P.
Proof. unfold person_names, entity_names. by rewrite map_map. Qed.

Lemma person_names_sort (M : list person) :
  person_names (sort_desc merge_key M) ≡ₚ person_names M.
Proof. unfold person_names. apply fmap_Permutation, sort_desc_perm. Qed.
End MergeFacts.

(** C2 (as amended): for all sources and counts, the case-insensitive
    names of the merged list are those of the primary source together
    with those of the supplementary source; and no such name is there
    twice when none is there twice within the primary source nor within
    the supplementary source. *)
Theorem merge_names_union (Pd : option (list entity))
  (Sd : option (list kaggle)) (C : gmap string Z) :
  (forall n : string,
      n ∈ person_names (merge_persons Pd Sd C)
      <-> n ∈ entity_names (items Pd) \/ n ∈ kaggle_names (items Sd))
  /\ (NoDup (entity_names (items Pd)) -> NoDup (kaggle_names (items Sd)) ->
      NoDup (person_names (merge_persons Pd Sd C))).
Proof.
  rewrite merge_persons_cases.
  destruct (items Pd) as [|e P] eqn:HP.
  - rewrite person_names_raise. split; [|done].
    intros n. split; [by right|]. intros [H|H]; [by inversion H|done].
  - destruct (items Sd) as [|p S] eqn:HS.
    + rewrite person_names_of_entity. split; [|done].
      intros n. split; [by left|]. intros [H|H]; [done|by inversion H].
    + split.
      * intros n. rewrite person_names_sort. apply unsorted_names_elem.
      * intros H1 H2. rewrite person_names_sort.
        by apply unsorted_names_NoDup.
Qed.

Lemma merge_names_union_witness :
  NoDup (person_names
           (merge_persons (Some [ent "Jane Doe" 2 0])
              (Some [kag "jane doe" 5 0 3; kag "John Roe" 1 1 0]) ∅)).
Proof.
  apply (merge_names_union (Some [ent "Jane Doe" 2 0])
           (Some [kag "jane doe" 5 0 3; kag "John Roe" 1 1 0]) ∅);
    by_computation.
Defined.

(** C2 fails as it is stated: a supplementary file with the same row twice
    gives the name twice. *)
Lemma merge_names_duplicate :
  ~ NoDup (person_names
             (merge_persons (Some [ent "Ann" 0 0])
                (Some [kag "Bob" 0 0 0; kag "Bob" 0 0 0]) ∅)).
Proof. refuted_by_computation. Qed.

(** The example of the specification: one "Jane Doe" with 5 flights. *)
Example merge_jane_doe :
  merge_persons (Some [ent "Jane Doe" 2 0]) (Some [kag "Jane Doe" 5 0 3]) ∅
  = [merge_entity ∅ (Some (kag "Jane Doe" 5 0 3)) (ent "Jane Doe" 2 0)]
  /\ p_flights (merge_entity ∅ (Some (kag "Jane Doe" 5 0 3))
                  (ent "Jane Doe" 2 0)) = 5.
Proof. split; reflexivity. Qed.

(** C3 (as amended): when no case-insensitive name is there twice within
    the primary source nor within the supplementary source, every merged
    record has at least the flights and the documents of every record of
    either source that bears its case-insensitive name. *)
Theorem merge_monotone (Pd : option (list entity))
  (Sd : option (list kaggle)) (C : gmap string Z) (r : person) :
  NoDup (entity_names (items Pd)) -> NoDup (kaggle_names (items Sd)) ->
  r ∈ merge_persons Pd Sd C ->
  (forall e : entity,
      e ∈ items Pd -> PyStr.lower (e_name e) = PyStr.lower (p_name r) ->
      e_flights e <= p_flights r /\ e_documents e <= p_documents r)
  /\ (forall p : kaggle,
         p ∈ items Sd -> PyStr.lower (k_name p) = PyStr.lower (p_name r) ->
         k_flights p <= p_flights r /\ k_documents p <= p_documents r).
Proof.
  intros HP HS. rewrite merge_persons_cases.
  destruct (items Pd) as [|e0 P0] eqn:EP.
  - intros (p' & -> & Hp')%list_elem_of_fmap. split.
    + intros e He. by inversion He.
    + intros p Hp Heq. simpl in Heq.
      assert (p = p') as -> by
        by eapply (NoDup_map_inj_on (fun p => PyStr.lower (k_name p))).
      simpl. lia.
  - set (P := e0 :: P0) in *. clearbody P.
    destruct (items Sd) as [|p0 S0] eqn:ES.
    + intros (e' & -> & He')%list_elem_of_fmap. split.
      * intros e He Heq. simpl in Heq.
        assert (e = e') as -> by
          by eapply (NoDup_map_inj_on (fun e => PyStr.lower (e_name e))).
        simpl. lia.
      * intros p Hp. by inversion Hp.
    + set (S := p0 :: S0) in *. clearbody S.
      rewrite sort_desc_elem_of, merge_unsorted_eq, elem_of_app.
      intros [(e' & -> & He')%list_elem_of_fmap
             |(p' & -> & Hp')%list_elem_of_fmap].
      * split.
        -- intros e He Heq. simpl in Heq.
           assert (e = e') as -> by
             by eapply (NoDup_map_inj_on (fun e => PyStr.lower (e_name e))).
           unfold merged_of. simpl. lia.
        -- intros p Hp Heq. unfold merged_of. simpl in *.
           rewrite <- Heq, (kaggle_map_NoDup S p HS Hp). simpl. lia.
      * apply kaggle_only_elem in Hp' as [Hno Hp']. split.
        -- intros e He Heq. simpl in Heq. destruct Hno. rewrite <- Heq.
           by apply (list_elem_of_fmap_2
                       (fun e => PyStr.lower (e_name e)) P e).
        -- intros p Hp Heq. simpl in Heq.
           assert (p = p') as -> by
             by eapply (NoDup_map_inj_on (fun p => PyStr.lower (k_name p))).
           simpl. lia.
Qed.

Lemma merge_monotone_witness :
  k_flights (kag "jane doe" 5 0 3)
  <= p_flights (merge_entity ∅ (Some (kag "jane doe" 5 0 3))
                  (ent "Jane Doe" 2 7))
  /\ k_documents (kag "jane doe" 5 0 3)
     <= p_documents (merge_entity ∅ (Some (kag "jane doe" 5 0 3))
                       (ent "Jane Doe" 2 7)).
Proof.
  apply (merge_monotone (Some [ent "Jane Doe" 2 7])
           (Some [kag "jane doe" 5 0 3; kag "John Roe" 1 1 0]) ∅
           (merge_entity ∅ (Some (kag "jane doe" 5 0 3))
              (ent "Jane Doe" 2 7)));
    by_computation || reflexivity.
Defined.

(** C3 fails as it is stated: of two supplementary rows with one name the
    later one is the match, so the merged record can have fewer flights
    than the earlier one. *)
Lemma merge_not_monotone :
  let P := [ent "Ann" 0 0] in
  let S := [kag "Ann" 5 0 0; kag "ann" 1 0 0] in
  exists r p,
    r ∈ merge_persons (Some P) (Some S) ∅ /\ p ∈ S
    /\ PyStr.lower (k_name p) = PyStr.lower (p_name r)
    /\ p_flights r < k_flights p.
Proof.
  exists (merge_entity ∅ (Some (kag "ann" 1 0 0)) (ent "Ann" 0 0)),
         (kag "Ann" 5 0 0).
  repeat split; try reflexivity; by_computation.
Qed.

Lemma sorted_desc_map {A B : Type} (key : B -> list Z) (f : A -> B)
  (l : list A) :
  sorted_desc (fun x => key (f x)) l -> sorted_desc key (map f l).
Proof.
  unfold sorted_desc. induction 1 as [|x l Hs IH Hx]; simpl; constructor.
  - done.
  - apply Forall_forall. intros y (x' & -> & Hin)%list_elem_of_fmap.
    rewrite Forall_forall in Hx. by apply Hx.
Qed.

(** The order of the keys of the merger: flights first, then documents. *)
Lemma merge_key_desc (r r' : person) :
  lex_ltb (merge_key r) (merge_key r') = false
  <-> p_flights r' < p_flights r
      \/ (p_flights r = p_flights r' /\ p_documents r' <= p_documents r).
Proof.
  unfold merge_key. simpl. rewrite andb_false_r, orb_false_r.
  destruct (Z.ltb_spec (p_flights r) (p_flights r')) as [H|H]; simpl.
  - split; [done|lia].
  - destruct (Z.eqb_spec (p_flights r) (p_flights r')) as [E|E]; simpl.
    + destruct (Z.ltb_spec (p_documents r) (p_documents r')); split;
        lia || done || auto.
    + split; [lia|done].
Qed.

(** C6 (as amended): when both sources are present, the merged list is
    the list of the records built from the primary records, in their
    order, followed by the supplementary-only records, in their order,
    sorted in descending order of (flights, documents), flights first,
    records of equal key staying in that order. When the supplementary
    source is absent or empty, the list keeps the order of the primary
    source, which is descending in (flights, documents) whenever the
    primary source is, as the output of [process_entities] is. When the
    primary source is absent or empty, the list keeps the order of the
    supplementary source and is not sorted again. *)
Theorem merge_order (Pd : option (list entity)) (Sd : option (list kaggle))
  (C : gmap string Z) :
  (truthy Pd = true -> truthy Sd = true ->
   let pre :=
     (map (merged_of C (build_kaggle_map (items Sd))) (items Pd)
      ++ map (raise_connections C) (kaggle_only (items Pd) (items Sd)))%list
   in
   sorted_desc merge_key (merge_persons Pd Sd C)
   /\ merge_persons Pd Sd C ≡ₚ pre
   /\ forall k, with_key merge_key k (merge_persons Pd Sd C)
                = with_key merge_key k pre)
  /\ (truthy Pd = true -> truthy Sd = false ->
      merge_persons Pd Sd C = map (person_of_entity C) (items Pd)
      /\ (sorted_desc entity_key (items Pd) ->
          sorted_desc merge_key (merge_persons Pd Sd C)))
  /\ (forall (image_index : image_index_t) (records : option (list csv_row)),
         Pd = process_entities image_index records -> truthy Sd = false ->
         sorted_desc merge_key (merge_persons Pd Sd C))
  /\ (truthy Pd = false ->
      merge_persons Pd Sd C = map (raise_connections C) (items Sd))
  /\ (forall r r' : person,
         lex_ltb (merge_key r) (merge_key r') = false
         <-> p_flights r' < p_flights r
             \/ (p_flights r = p_flights r'
                 /\ p_documents r' <= p_documents r)).
Proof.
  split; [|split; [|split; [|split]]]; [| | | |apply merge_key_desc].
  - intros HP HS pre. rewrite merge_persons_both by done.
    rewrite merge_unsorted_eq. fold pre. split; [|split].
    + apply sort_desc_sorted.
    + apply sort_desc_perm.
    + intros k. apply sort_desc_stable.
  - intros HP HS. unfold merge_persons. rewrite HP, HS. simpl.
    split; [done|]. apply (sorted_desc_map merge_key (person_of_entity C)).
  - intros idx records -> HS. unfold merge_persons. rewrite HS.
    destruct records as [records|]; simpl; [|constructor].
    destruct (sort_desc entity_key _) as [|e P] eqn:E; simpl; [constructor|].
    change (sorted_desc merge_key (map (person_of_entity C) (e :: P))).
    rewrite <- E.
    apply (sorted_desc_map merge_key (person_of_entity C)), sort_desc_sorted.
  - intros HP. unfold merge_persons. rewrite HP. simpl.
    destruct Sd as [[|p S]|]; reflexivity.
Qed.

Lemma merge_order_witness :
  sorted_desc merge_key
    (merge_persons (Some [ent "Ann" 1 4; ent "Bob" 0 2])
       (Some [kag "Cid" 1 9 0; kag "bob" 3 0 0]) ∅).
Proof.
  destruct (merge_order (Some [ent "Ann" 1 4; ent "Bob" 0 2])
              (Some [kag "Cid" 1 9 0; kag "bob" 3 0 0]) ∅) as [H _].
  apply H; reflexivity.
Defined.

(** C6 fails as it is stated: with the supplementary source alone the
    list stays in the order of that source, here by connections, and its
    flights ascend. *)
Lemma merge_order_supplementary_only :
  let rows : list csv_row :=
    [list_to_map [cell "Name" "Ann"; cell "Flights" "1";
                  cell "Connections" "5"];
     list_to_map [cell "Name" "Bob"; cell "Flights" "9";
                  cell "Connections" "2"]] in
  let out := merge_persons None (process_persons_kaggle [] (Some rows)) ∅ in
  map (fun r => (p_name r, p_flights r)) out = [("Ann", 1); ("Bob", 9)]
  /\ ~ sorted_desc merge_key out.
Proof.
  split; [by vm_compute|].
  intros H. apply StronglySorted_inv in H as [_ H].
  apply Forall_inv in H. vm_compute in H. discriminate.
Qed.

(** C10: when both sources are present and a primary record has a
    supplementary record of the same case-insensitive name, the merged
    list has a record with the name, entity type, role description,
    emails and slug of the primary record; its flights, documents,
    connections, black book flag, nationality, category and, when the
    primary record has no image, its images come from a supplementary
    record of that name. Moreover every merged record of that name has
    the name, entity type, role description, emails and slug of a primary
    record of that name. *)
Theorem merge_frame (Pd : option (list entity)) (Sd : option (list kaggle))
  (C : gmap string Z) (e : entity) (p : kaggle) :
  truthy Pd = true -> truthy Sd = true ->
  e ∈ items Pd -> p ∈ items Sd ->
  PyStr.lower (k_name p) = PyStr.lower (e_name e) ->
  (exists (r : person) (m : kaggle),
      r ∈ merge_persons Pd Sd C
      /\ m ∈ items Sd /\ PyStr.lower (k_name m) = PyStr.lower (e_name e)
      /\ p_name r = e_name e
      /\ p_entity_type r = Some (e_entity_type e)
      /\ p_role_description r = Some (e_role_description e)
      /\ p_emails r = Some (e_emails e)
      /\ p_slug r = Some (e_slug e)
      /\ p_flights r = Z.max (e_flights e) (k_flights m)
      /\ p_documents r = Z.max (e_documents e) (k_documents m)
      /\ p_connections r = Z.max (count_of C (e_name e)) (k_connections m)
      /\ p_in_black_book r = k_in_black_book m
      /\ p_nationality r = k_nationality m
      /\ p_category r = k_category m
      /\ p_images r
         = match e_images e with [] => k_images m | imgs => imgs end)
  /\ (forall r : person,
         r ∈ merge_persons Pd Sd C ->
         PyStr.lower (p_name r) = PyStr.lower (e_name e) ->
         exists e' : entity,
           e' ∈ items Pd
           /\ p_name r = e_name e'
           /\ p_entity_type r = Some (e_entity_type e')
           /\ p_role_description r = Some (e_role_description e')
           /\ p_emails r = Some (e_emails e')
           /\ p_slug r = Some (e_slug e')).
Proof.
  intros HP HS He Hp Heq. rewrite merge_persons_both by done.
  set (P := items Pd) in *. set (S := items Sd) in *. split.
  - destruct (kaggle_map_is_Some S p Hp) as [m Hm]. rewrite Heq in Hm.
    exists (merged_of C (build_kaggle_map S) e), m.
    destruct (kaggle_map_Some S _ _ Hm) as [Hin Hname].
    split.
    { rewrite sort_desc_elem_of, merge_unsorted_eq, elem_of_app. left.
      by apply (list_elem_of_fmap_2 (merged_of C (build_kaggle_map S)) P e). }
    unfold merged_of. rewrite Hm. simpl. by repeat split.
  - intros r. rewrite sort_desc_elem_of, merge_unsorted_eq, elem_of_app.
    intros [(e' & -> & He')%list_elem_of_fmap
           |(p' & -> & Hp')%list_elem_of_fmap] Hr.
    + exists e'. by repeat split.
    + apply kaggle_only_elem in Hp' as [Hno _]. destruct Hno.
      simpl in Hr. rewrite Hr.
      by apply (list_elem_of_fmap_2 (fun e => PyStr.lower (e_name e)) P e).
Qed.

Lemma merge_frame_witness :
  exists r : person,
    r ∈ merge_persons (Some [ent "Jane Doe" 2 7])
          (Some [kag "jane doe" 5 0 3; kag "John Roe" 1 1 0]) ∅
    /\ p_name r = "Jane Doe" /\ p_emails r = Some 0 /\ p_flights r = 5.
Proof.
  destruct (merge_frame (Some [ent "Jane Doe" 2 7])
              (Some [kag "jane doe" 5 0 3; kag "John Roe" 1 1 0]) ∅
              (ent "Jane Doe" 2 7) (kag "jane doe" 5 0 3))
    as [(r & m & Hr & Hm & Hn & H) _];
    [reflexivity | reflexivity | by_computation | by_computation
    | reflexivity |].
  exists r. split; [exact Hr|].
  destruct H as (-> & _ & _ & -> & _ & -> & _).
  split; [reflexivity|]. split; [reflexivity|].
  apply list_elem_of_In in Hm. simpl in Hm.
  destruct Hm as [<-|[<-|[]]]; [reflexivity|discriminate Hn].
Defined.

(** ** Network assembler *)

Section NodeTable.
Implicit Types (tbl : node_table) (name : string) (n : node).

Lemma has_node_elem tbl name :
  has_node tbl name = true <-> name ∈ map fst tbl.
Proof.
  unfold has_node. rewrite existsb_exists. split.
  - intros (kv & Hin & Heq). apply String.eqb_eq in Heq as <-.
    apply list_elem_of_In in Hin.
    by apply (list_elem_of_fmap_2 fst tbl kv).
  - intros (kv & -> & Hin)%list_elem_of_fmap. exists kv.
    split; [by apply list_elem_of_In|apply String.eqb_refl].
Qed.

Lemma add_node_app tbl name n :
  add_node tbl name n = (tbl ++ added tbl name n)%list.
Proof.
  unfold add_node, added. destruct (has_node tbl name); [|done].
  by rewrite app_nil_r.
Qed.

Lemma add_node_keys tbl name n k :
  k ∈ map fst (add_node tbl name n) <-> k ∈ map fst tbl \/ k = name.
Proof.
  rewrite add_node_app, map_app, elem_of_app. unfold added.
  destruct (has_node tbl name) eqn:Hh; simpl.
  - apply has_node_elem in Hh. split.
    + intros [?|H]; [by left|by inversion H].
    + intros [?| ->]; by left.
  - rewrite list_elem_of_singleton. tauto.
Qed.

Lemma add_node_NoDup tbl name n :
  NoDup (map fst tbl) -> NoDup (map fst (add_node tbl name n)).
Proof.
  intros Hnd. rewrite add_node_app, map_app. unfold added.
  destruct (has_node tbl name) eqn:Hh; simpl.
  - by rewrite app_nil_r.
  - apply NoDup_app. split; [done|]. split; [|apply NoDup_singleton].
    intros k Hk ->%list_elem_of_singleton.
    apply has_node_elem in Hk. congruence.
Qed.
End NodeTable.

Section BaseNodes.
Implicit Types (tbl : node_table) (L : list person) (p : person).

Lemma base_fold_app tbl L :
  exists new : node_table,
    foldl base_step tbl L = (tbl ++ new)%list
    /\ (length new <= length L)%nat
    /\ Forall (fun kv => exists p, p ∈ L /\ kv = base_entry p) new.
Proof.
  revert tbl. induction L as [|p L IH]; intros tbl; simpl.
  - exists []. rewrite app_nil_r. repeat split; [done|constructor].
  - destruct (IH (base_step tbl p)) as (new & -> & Hlen & Hall).
    unfold base_step at 1. rewrite add_node_app, <- app_assoc.
    eexists. split; [done|]. split.
    + rewrite length_app. unfold added.
      destruct (has_node _ _); simpl; lia.
    + apply Forall_app. split.
      * unfold added. destruct (has_node _ _); constructor; [|done].
        exists p. split; [left|done].
      * eapply Forall_impl; [exact Hall|].
        intros kv (p' & Hp' & ->). exists p'. split; [by right|done].
Qed.

Lemma base_fold_keys tbl L k :
  k ∈ map fst (foldl base_step tbl L)
  <-> k ∈ map fst tbl \/ k ∈ map p_name L.
Proof.
  revert tbl. induction L as [|p L IH]; intros tbl; simpl.
  - split; [by left|]. intros [?|H]; [done|by inversion H].
  - rewrite IH. unfold base_step. rewrite add_node_keys, elem_of_cons.
    tauto.
Qed.

Lemma base_fold_NoDup tbl L :
  NoDup (map fst tbl) -> NoDup (map fst (foldl base_step tbl L)).
Proof.
  revert tbl. induction L as [|p L IH]; intros tbl Hnd; simpl; [done|].
  apply IH. by apply add_node_NoDup.
Qed.

Lemma base_fold_distinct tbl L :
  NoDup (map p_name L) ->
  (forall k, k ∈ map p_name L -> k ∉ map fst tbl) ->
  foldl base_step tbl L = (tbl ++ map base_entry L)%list.
Proof.
  revert tbl. induction L as [|p L IH]; intros tbl Hnd Hfresh; simpl.
  - by rewrite app_nil_r.
  - apply NoDup_cons in Hnd as [Hp Hnd].
    assert (has_node tbl (p_name p) = false) as Hh.
    { destruct (has_node tbl (p_name p)) eqn:Hh; [|done].
      apply has_node_elem in Hh. destruct (Hfresh (p_name p)); [left|done]. }
    rewrite IH; [|done|].
    + unfold base_step, add_node. rewrite Hh.
      by rewrite <- app_assoc.
    + intros k Hk. unfold base_step. rewrite add_node_keys.
      intros [Hin| ->]; [|done].
      by apply (Hfresh k); [right|].
Qed.
End BaseNodes.

Section Stubs.
Implicit Types (tbl : node_table) (c : pair_counter) (l : link).

Lemma rel_fold tbl (acc L : list link) :
  exists new : node_table,
    foldl rel_step (tbl, acc) L = ((tbl ++ new)%list, (acc ++ L)%list)
    /\ Forall (fun kv => stub_entry "Relationship" kv
                         /\ exists l, l ∈ L /\ end_of kv.1 l) new.
Proof.
  revert tbl acc. induction L as [|l L IH]; intros tbl acc; simpl.
  - exists []. rewrite !app_nil_r. split; [done|constructor].
  - unfold rel_step at 2. simpl. rewrite !add_node_app.
    set (a1 := added tbl _ _). set (a2 := added (tbl ++ a1) _ _).
    destruct (IH ((tbl ++ a1) ++ a2)%list (acc ++ [l])%list)
      as (new & -> & Hall).
    exists (a1 ++ a2 ++ new)%list. split.
    { by rewrite <- !app_assoc. }
    rewrite !Forall_app. split; [|split].
    + subst a1. unfold added. destruct (has_node _ _); constructor; [|done].
      split; [done|]. exists l. split; [left|by left].
    + subst a2. unfold added. destruct (has_node _ _); constructor; [|done].
      split; [done|]. exists l. split; [left|by right].
    + eapply Forall_impl; [exact Hall|].
      intros kv (? & l' & ? & ?). split; [done|].
      exists l'. split; [by right|done].
Qed.

Lemma pair_eqb_eq (a b : string * string) : pair_eqb a b = true <-> a = b.
Proof.
  destruct a as [a1 a2], b as [b1 b2]. unfold pair_eqb. simpl.
  rewrite andb_true_iff, !String.eqb_eq. split; [by intros [-> ->]|].
  by intros [= -> ->].
Qed.

Lemma pair_incr_pairs pr c k :
  k ∈ pairs_of (pair_incr pr c) <-> k ∈ pairs_of c \/ k = pr.
Proof.
  unfold pairs_of. induction c as [|[k' v] c IH]; simpl.
  - rewrite list_elem_of_singleton. split; [by right|].
    intros [H|?]; [by inversion H|done].
  - destruct (pair_eqb k' pr) eqn:He; simpl.
    + apply pair_eqb_eq in He as ->. rewrite elem_of_cons. tauto.
    + rewrite !elem_of_cons, IH. tauto.
Qed.

Lemma sorted_pair_members (p1 p2 : string) :
  member_of p1 (sorted_pair p1 p2) /\ member_of p2 (sorted_pair p1 p2).
Proof.
  unfold sorted_pair, member_of. destruct (PyStr.ltb p2 p1); simpl; auto.
Qed.

Lemma grows_refl st : grows st st.
Proof.
  split; [|done]. exists []. rewrite app_nil_r. split; [done|constructor].
Qed.

Lemma grows_trans st1 st2 st3 : grows st1 st2 -> grows st2 st3 -> grows st1 st3.
Proof.
  intros [(n1 & E1 & F1) K1] [(n2 & E2 & F2) K2]. split; [|by auto].
  exists (n1 ++ n2)%list. split.
  - by rewrite E2, E1, <- app_assoc.
  - apply Forall_app. split; [|done].
    eapply Forall_impl; [exact F1|].
    intros kv [? (pr & ? & ?)]. split; [done|]. exists pr. auto.
Qed.

Lemma pair_step_grows p1 st p2 : grows st (pair_step p1 st p2).
Proof.
  unfold pair_step. destruct (String.eqb p1 p2); [apply grows_refl|].
  destruct (sorted_pair_members p1 p2) as [M1 M2].
  split; simpl.
  - rewrite !add_node_app, <- app_assoc. eexists. split; [done|].
    apply Forall_app. split.
    + unfold added. destruct (has_node _ _); constructor; [|done].
      split; [done|]. exists (sorted_pair p1 p2).
      split; [|done]. apply pair_incr_pairs. by right.
    + unfold added. destruct (has_node _ _); constructor; [|done].
      split; [done|]. exists (sorted_pair p1 p2).
      split; [|done]. apply pair_incr_pairs. by right.
  - intros k Hk. apply pair_incr_pairs. by left.
Qed.

Lemma foldl_grows {A : Type} (f : node_table * pair_counter -> A ->
                                  node_table * pair_counter)
  (l : list A) st :
  (forall st x, grows st (f st x)) -> grows st (foldl f st l).
Proof.
  intros Hf. revert st. induction l as [|x l IH]; intros st; simpl.
  - apply grows_refl.
  - eapply grows_trans; [apply Hf|apply IH].
Qed.

Lemma pairs_loop_grows pax st : grows st (pairs_loop pax st).
Proof.
  revert st. induction pax as [|p1 rest IH]; intros st; simpl.
  - apply grows_refl.
  - eapply grows_trans; [|apply IH].
    apply foldl_grows. intros. apply pair_step_grows.
Qed.

Lemma flight_step_grows st fl : grows st (flight_step st fl).
Proof.
  unfold flight_step. destruct (PyStr.nonempty _); [|apply grows_refl].
  apply pairs_loop_grows.
Qed.

Lemma same_counter_foldl {A : Type}
  (f : node_table * pair_counter -> A -> node_table * pair_counter)
  (l : list A) :
  (forall x, same_counter (fun st => f st x)) ->
  same_counter (fun st => foldl f st l).
Proof.
  intros Hf. induction l as [|x l IH]; intros tbl tbl' c; simpl; [done|].
  specialize (Hf x tbl tbl' c). simpl in Hf.
  destruct (f (tbl, c) x) as [t1 c1], (f (tbl', c) x) as [t2 c2].
  simpl in Hf. subst c2. apply IH.
Qed.

Lemma same_counter_pair_step p1 p2 :
  same_counter (fun st => pair_step p1 st p2).
Proof.
  intros tbl tbl' c. unfold pair_step. by destruct (String.eqb p1 p2).
Qed.

Lemma same_counter_pairs_loop pax :
  same_counter (pairs_loop pax).
Proof.
  induction pax as [|p1 rest IH]; intros tbl tbl' c; simpl; [done|].
  pose proof (same_counter_foldl (pair_step p1) rest
                (same_counter_pair_step p1) tbl tbl' c) as H.
  simpl in H.
  destruct (foldl (pair_step p1) (tbl, c) rest) as [t1 c1],
           (foldl (pair_step p1) (tbl', c) rest) as [t2 c2].
  simpl in H. subst c2. apply IH.
Qed.

Lemma same_counter_flight_step fl :
  same_counter (fun st => flight_step st fl).
Proof.
  intros tbl tbl' c. unfold flight_step. simpl.
  destruct (PyStr.nonempty _); [|done]. apply same_counter_pairs_loop.
Qed.

Lemma flights_counter tbl (F : list flight) :
  (foldl flight_step (tbl, []) F).2 = co_occurrence_of F.
Proof.
  unfold co_occurrence_of.
  apply (same_counter_foldl flight_step F same_counter_flight_step).
Qed.
End Stubs.

Section Assembly.
Implicit Types (persons : list person) (flights : option (list flight)).

Lemma base_nodes_fold persons :
  base_nodes persons = foldl base_step [] (take 300 persons).
Proof. reflexivity. Qed.

(** With relationship data: the first 1000 edges and their stubs. *)
Lemma build_network_given persons (ls : list link) (ns : gset string)
  flights :
  exists new : node_table,
    nodes (build_network persons (Some (ls, ns)) flights)
    = map snd (base_nodes persons ++ new)%list
    /\ links (build_network persons (Some (ls, ns)) flights)
       = take 1000 ls
    /\ Forall (fun kv => stub_entry "Relationship" kv
                         /\ exists l, l ∈ take 1000 ls /\ end_of kv.1 l)
              new.
Proof.
  unfold build_network. simpl. rewrite andb_false_r.
  destruct (rel_fold (base_nodes persons) [] (take 1000 ls))
    as (new & -> & Hall).
  exists new. simpl. by repeat split.
Qed.

(** Without relationship data: the co-occurrence edges and the stubs of
    the passengers. *)
Lemma build_network_absent persons flights :
  exists new : node_table,
    nodes (build_network persons None flights)
    = map snd (base_nodes persons ++ new)%list
    /\ links (build_network persons None flights)
       = co_links (items flights)
    /\ Forall (flight_stub (co_occurrence_of (items flights))) new.
Proof.
  unfold build_network. simpl. rewrite andb_true_r.
  destruct (truthy flights) eqn:Ht; simpl.
  - pose proof (foldl_grows flight_step (items flights)
                  (base_nodes persons, []) flight_step_grows)
      as [(new & E & Hall) _].
    simpl in E. rewrite flights_counter in Hall.
    exists new. rewrite E, flights_counter. by repeat split.
  - exists []. rewrite app_nil_r.
    assert (items flights = []) as -> by by destruct flights as [[|??]|].
    repeat split. constructor.
Qed.

Lemma co_links_length (F : list flight) : (length (co_links F) <= 500)%nat.
Proof.
  unfold co_links, most_common. rewrite length_map, length_take. lia.
Qed.
End Assembly.

(** C4 (as amended): the co-occurrence edges are derived only when the
    relationship source is absent, and then the links are exactly the
    edges of the 500 most common pairs of the flight data (none when there
    are no flights); when the relationship source is present, also with
    no edge in it, the links are exactly its first 1000 edges. So the
    links never hold edges of both kinds. The flight "Jane Doe, John Roe"
    alone gives the one edge (Jane Doe, John Roe) of weight 1. *)
Theorem co_occurrence_gate (persons : list person)
  (relationships_data : option (list link * gset string))
  (flight_data : option (list flight)) :
  links (build_network persons relationships_data flight_data)
  = match relationships_data with
    | Some (rel_links, _) => take 1000 rel_links
    | None => co_links (items flight_data)
    end
  /\ co_links [] = []
  /\ co_links [on_flight "Jane Doe, John Roe"]
     = [{| l_source := "Jane Doe"; l_target := "John Roe";
           l_type := "co-passenger"; l_weight := 1 |}].
Proof.
  split; [|split; reflexivity].
  destruct relationships_data as [[ls ns]|].
  - by destruct (build_network_given persons ls ns flight_data)
      as (new & _ & -> & _).
  - by destruct (build_network_absent persons flight_data)
      as (new & _ & -> & _).
Qed.

(** C4 fails as it is stated: a relationship file without any row leaves
    no relationship edge, and yet no co-occurrence edge is derived from
    the flights. *)
Lemma co_occurrence_not_derived :
  let flights := [on_flight "Jane Doe, John Roe"] in
  let relationships_data := process_relationships (fun _ => None) (Some []) in
  relationships_data = Some ([], ∅)
  /\ links (build_network [] relationships_data (Some flights)) = []
  /\ co_links flights <> [].
Proof. repeat split. discriminate. Qed.

(** C5 (as amended): for every persons list with more than 300 entries,
    the nodes of the network are the base nodes followed by stub nodes
    only. The base nodes are made of the first 300 persons, one node for
    each of their names, so there are at most 300 of them, and exactly
    300, the nodes of the first 300 persons in their order, when these
    names are pairwise distinct. Every stub is an end of one of the edges
    kept, or a passenger of a counted pair. The relationship edges are
    the first 1000, and the co-occurrence edges are at most 500. *)
Theorem network_caps (persons : list person)
  (relationships_data : option (list link * gset string))
  (flight_data : option (list flight)) :
  (300 < length persons)%nat ->
  let net := build_network persons relationships_data flight_data in
  let base := base_nodes persons in
  (exists new : node_table,
      nodes net = (map snd base ++ map snd new)%list
      /\ Forall is_stub (map snd new)
      /\ match relationships_data with
         | Some (rel_links, _) =>
             Forall (fun kv => exists l, l ∈ take 1000 rel_links
                                         /\ end_of kv.1 l) new
         | None =>
             Forall (fun kv =>
                       exists pr,
                         pr ∈ pairs_of (co_occurrence_of (items flight_data))
                         /\ member_of kv.1 pr) new
         end)
  /\ (length base <= 300)%nat
  /\ NoDup (map fst base)
  /\ (forall k, k ∈ map fst base <-> k ∈ map p_name (take 300 persons))
  /\ Forall (fun kv => exists p, p ∈ take 300 persons /\ kv = base_entry p)
            base
  /\ (NoDup (map p_name (take 300 persons)) ->
      map snd base = map person_node (take 300 persons)
      /\ length base = 300%nat)
  /\ match relationships_data with
     | Some (rel_links, _) =>
         links net = take 1000 rel_links /\ (length (links net) <= 1000)%nat
     | None =>
         links net
         = map co_link (most_common 500 (co_occurrence_of (items flight_data)))
         /\ (length (links net) <= 500)%nat
     end.
Proof.
  intros Hlen net base.
  assert (length (take 300 persons) = 300%nat) as Htake.
  { rewrite length_take. lia. }
  destruct (base_fold_app [] (take 300 persons)) as (new0 & E0 & L0 & F0).
  rewrite <- base_nodes_fold in E0. fold base in E0. simpl in E0.
  split; [|split; [|split; [|split; [|split; [|split]]]]].
  - subst net. destruct relationships_data as [[ls ns]|].
    + destruct (build_network_given persons ls ns flight_data)
        as (new & -> & _ & Hall).
      exists new. rewrite map_app. split; [done|]. split.
      * apply Forall_fmap. eapply Forall_impl; [exact Hall|].
        intros [k n] [Hs _]. unfold stub_entry in Hs. simpl in *.
        left. by rewrite Hs.
      * eapply Forall_impl; [exact Hall|]. by intros kv [_ ?].
    + destruct (build_network_absent persons flight_data)
        as (new & -> & _ & Hall).
      exists new. rewrite map_app. split; [done|]. split.
      * apply Forall_fmap. eapply Forall_impl; [exact Hall|].
        intros [k n] [Hs _]. unfold stub_entry in Hs. simpl in *.
        right. by rewrite Hs.
      * eapply Forall_impl; [exact Hall|]. by intros kv [_ ?].
  - rewrite E0. lia.
  - subst base. rewrite base_nodes_fold. apply base_fold_NoDup. constructor.
  - intros k. subst base. rewrite base_nodes_fold, base_fold_keys.
    split; [|by right]. intros [H|?]; [by inversion H|done].
  - by rewrite E0.
  - intros Hnd. subst base. rewrite base_nodes_fold.
    rewrite base_fold_distinct; [|done|].
    + simpl. rewrite map_map, length_map. split; [done|exact Htake].
    + intros k _ H. by inversion H.
  - subst net. destruct relationships_data as [[ls ns]|].
    + destruct (build_network_given persons ls ns flight_data)
        as (new & _ & -> & _).
      split; [done|]. rewrite length_take. lia.
    + destruct (build_network_absent persons flight_data)
        as (new & _ & -> & _).
      split; [done|]. apply co_links_length.
Qed.

Lemma network_caps_witness :
  length (base_nodes (map numbered (seq 0 301))) = 300%nat.
Proof.
  assert (300 < length (map numbered (seq 0 301)))%nat as H
    by (vm_compute; lia).
  destruct (network_caps (map numbered (seq 0 301)) None None H)
    as (_ & _ & _ & _ & _ & Hexact & _).
  apply Hexact. by_computation.
Defined.

(** C5 fails as it is stated: of 301 persons whose first two bear one
    name, the network has 299 base nodes. *)
Lemma network_fewer_base_nodes :
  let persons := numbered 0 :: map numbered (seq 0 300) in
  length persons = 301%nat
  /\ length (nodes (build_network persons None None)) = 299%nat.
Proof. split; vm_compute; reflexivity. Qed.

(** ** Record normalizers *)

Section Parsing.
Lemma digits_from_nonneg (s : string) (acc : Z) (b : bool) (z : Z) :
  PyStr.digits_from acc b s = Some z -> 0 <= acc -> 0 <= z.
Proof.
  revert acc b. induction s as [|c s IH]; intros acc b; simpl.
  - destruct b; [|done]. by intros [= ->].
  - destruct (PyStr.is_digit c) eqn:Hd.
    + intros H Hacc. apply (IH _ _ H).
      unfold PyStr.is_digit in Hd.
      apply andb_true_iff in Hd as [Hd _]. apply N.leb_le in Hd. lia.
    + destruct (PyStr.code c =? 95)%N; [|done].
      destruct b; [|done]. intros H Hacc. by apply (IH _ _ H).
Qed.

(** A string that converts to a negative integer has a minus sign in
    front, white space apart. *)
Lemma int_of_string_negative (s : string) (z : Z) :
  PyStr.int_of_string s = Some z -> z < 0 ->
  exists r, PyStr.strip s = String "-" r.
Proof.
  unfold PyStr.int_of_string. destruct (PyStr.strip s) as [|c r]; [done|].
  destruct (PyStr.code c =? 45)%N eqn:Hc.
  - intros _ _. exists r. f_equal. apply N.eqb_eq in Hc.
    unfold PyStr.code in Hc.
    rewrite <- (ascii_N_embedding c), Hc. reflexivity.
  - destruct (PyStr.code c =? 43)%N.
    + intros H Hz. apply digits_from_nonneg in H; lia.
    + intros H Hz. apply digits_from_nonneg in H; lia.
Qed.

Lemma int_or_zero_read (cell : option (option string)) :
  count_read cell (int_or_zero cell).
Proof.
  unfold count_read, int_or_zero. destruct cell as [[s|]|]; try done.
  destruct s as [|c s]; [done|]. simpl PyStr.nonempty. cbv iota.
  by destruct (PyStr.int_of_string _).
Qed.

Lemma count_read_negative (cell : option (option string)) (v : Z) :
  count_read cell v -> v < 0 ->
  exists s r, cell = Some (Some s) /\ PyStr.strip s = String "-" r.
Proof.
  unfold count_read. destruct cell as [[s|]|]; try lia.
  destruct (PyStr.int_of_string s) as [z|] eqn:Hz; [|lia].
  intros -> Hneg. exists s.
  destruct (int_of_string_negative s z Hz Hneg) as [r Hr]. eauto.
Qed.
End Parsing.

(** C7 (as amended): every count of a produced record is an integer and
    never null: it is the integer the raw field converts to, and 0 when
    the field is missing, empty or does not convert; it is negative only
    when the raw text has a minus sign in front. This holds for the
    flights, documents and emails of a primary record, for the flights,
    documents and connections of a supplementary record, and for the
    importance score of a document, where a raw value that is an infinite
    float raises an error instead of giving a record. *)
Theorem counts_read :
  (forall (image_index : image_index_t) (record : csv_row) (e : entity),
      entity_of_record image_index record = Some e ->
      count_read (record !! "flight_count") (e_flights e)
      /\ count_read (record !! "document_count") (e_documents e)
      /\ count_read (record !! "email_count") (e_emails e))
  /\ (forall (image_index : image_index_t) (record : csv_row) (k : kaggle),
         kaggle_of_record image_index record = Some k ->
         count_read (get_with_legacy record "Flights" "Number of flights")
                    (k_flights k)
         /\ count_read
              (get_with_legacy record "Documents" "Number of documents")
              (k_documents k)
         /\ count_read (record !! "Connections") (k_connections k))
  /\ (forall (cell : option (option string)) (v : Z),
         count_read cell v -> v < 0 ->
         exists s r, cell = Some (Some s) /\ PyStr.strip s = String "-" r)
  /\ (forall record : gmap string jval,
         document_importance record
         = match record !! "importance_score" with
           | None => inr 0
           | Some v =>
               match int_of_jval v with
               | inr z => inr z
               | inl OverflowError => inl OverflowError
               | inl _ => inr 0
               end
           end).
Proof.
  split; [|split; [|split]].
  - intros idx record e. unfold entity_of_record.
    destruct (PyStr.nonempty _); [|done]. intros [= <-]. simpl.
    repeat split; apply int_or_zero_read.
  - intros idx record k. unfold kaggle_of_record.
    destruct (PyStr.nonempty _); [|done]. intros [= <-]. simpl.
    repeat split; apply int_or_zero_read.
  - apply count_read_negative.
  - intros record. unfold document_importance.
    destruct (record !! "importance_score") as [v|]; simpl; [|done].
    destruct v as [|[]|z|[q|b|]|s|[]]; simpl; try done.
    + by destruct (Z.eqb_spec z 0) as [->|].
    + destruct (Z.eqb_spec (Qnum q) 0) as [->|]; simpl; [|done].
      by rewrite Z.quot_0_l.
    + destruct s as [|c s]; simpl; [done|].
      by destruct (PyStr.int_of_string _).
Qed.

Lemma counts_read_witness :
  let record : csv_row :=
    list_to_map [cell "name" "Jane Doe"; cell "flight_count" " 12 ";
                 cell "document_count" "many"] in
  count_read (record !! "flight_count") 12
  /\ count_read (record !! "document_count") 0
  /\ count_read (record !! "email_count") 0.
Proof.
  intros record. destruct counts_read as [H _].
  apply (H [] record
           {| e_name := "Jane Doe"; e_entity_type := "";
              e_role_description := ""; e_documents := 0; e_flights := 12;
              e_emails := 0; e_slug := ""; e_images := [] |}).
  reflexivity.
Defined.

(** C7 fails as it is stated: a count written with a minus sign is kept
    negative. *)
Lemma count_negative :
  let record : csv_row :=
    list_to_map [cell "name" "Ann"; cell "flight_count" "-5"] in
  e_flights <$> entity_of_record [] record = Some (-5).
Proof. reflexivity. Qed.

Section Rounding.
(** [round] gives an integer at most one half away, and the even one
    when two are that near. *)
Lemma round_half_even_nearest (q : Q) :
  (Qabs (inject_Z (round_half_even q) - q) <= 1 # 2)%Q
  /\ ((Qabs (inject_Z (round_half_even q) - q) == 1 # 2)%Q ->
      Z.even (round_half_even q) = true).
Proof.
  destruct q as [n d]. unfold round_half_even. simpl Qnum. simpl Qden.
  pose proof (Z.div_mod n (Z.pos d) ltac:(lia)) as Hdm.
  pose proof (Z.mod_pos_bound n (Z.pos d) ltac:(lia)) as Hr.
  set (fl := n / Z.pos d) in *. set (r := n mod Z.pos d) in *.
  assert (forall z : Z,
             Qabs (inject_Z z - (n # d))
             = (Z.abs (z * Z.pos d - n) # d)%Q) as Habs.
  { intros z. unfold Qabs, Qminus, Qplus, Qopp, inject_Z. simpl.
    f_equal. f_equal. lia. }
  assert (forall z : Z,
             2 * Z.abs (z * Z.pos d - n) <= Z.pos d ->
             (Qabs (inject_Z z - (n # d)) <= 1 # 2)%Q) as Hle.
  { intros z Hz. rewrite Habs. unfold Qle. simpl. lia. }
  assert (forall z : Z,
             (Qabs (inject_Z z - (n # d)) == 1 # 2)%Q ->
             2 * Z.abs (z * Z.pos d - n) = Z.pos d) as Heq.
  { intros z. rewrite Habs. unfold Qeq. simpl. lia. }
  destruct (Z.ltb_spec (2 * r) (Z.pos d)) as [H1|H1].
  - split; [apply Hle; nia|]. intros H%Heq. nia.
  - destruct (Z.ltb_spec (Z.pos d) (2 * r)) as [H2|H2].
    + split; [apply Hle; nia|]. intros H%Heq. nia.
    + destruct (Z.even fl) eqn:Hev.
      * split; [apply Hle; nia|done].
      * split; [apply Hle; nia|]. intros _.
        rewrite Z.even_add, Hev. reflexivity.
Qed.
End Rounding.

(** C8 (as amended): the weight of a produced edge is an integer, which
    can be 0 or negative. A strength that converts to an integer is
    taken as it is; one that does not, but converts to a finite float,
    gives the integer nearest to that float, the even one when two are as
    near; a strength that is missing or empty, that converts to neither,
    or that converts to a NaN or to an infinity gives 1. *)
Theorem weight_of_strength (py_float : string -> option pyfloat)
  (record : csv_row) (l : link) :
  link_of_record py_float record = Some l ->
  (forall s z, record !! "strength" = Some (Some s) ->
               PyStr.int_of_string s = Some z -> l_weight l = z)
  /\ (forall s q, record !! "strength" = Some (Some s) -> s <> "" ->
                  PyStr.int_of_string s = None ->
                  py_float s = Some (Finite q) ->
                  l_weight l = round_half_even q
                  /\ (Qabs (inject_Z (l_weight l) - q) <= 1 # 2)%Q
                  /\ ((Qabs (inject_Z (l_weight l) - q) == 1 # 2)%Q ->
                      Z.even (l_weight l) = true))
  /\ (forall s, record !! "strength" = Some (Some s) ->
                PyStr.int_of_string s = None ->
                py_float s = None \/ py_float s = Some NaN
                \/ (exists b, py_float s = Some (Inf b)) ->
                l_weight l = 1)
  /\ (record !! "strength" = None \/ record !! "strength" = Some None
      \/ record !! "strength" = Some (Some "") ->
      l_weight l = 1).
Proof.
  unfold link_of_record. destruct (_ && _); [|done]. intros [= <-]. simpl.
  split; [|split; [|split]].
  - intros s z -> Hz. simpl. rewrite Hz.
    destruct s as [|c s]; [done|]. reflexivity.
  - intros s q -> Hs Hi Hf. simpl. rewrite Hi, Hf.
    destruct s as [|c s]; [done|]. simpl.
    destruct (round_half_even_nearest q). auto.
  - intros s -> Hi Hf. simpl. rewrite Hi.
    destruct s as [|c s]; [done|]. simpl.
    destruct Hf as [-> | [-> | [b ->]]]; reflexivity.
  - intros [-> | [-> | ->]]; reflexivity.
Qed.

Lemma weight_of_strength_witness :
  l_weight (edge "Ann" "Bob" 2) = round_half_even (5 # 2).
Proof.
  set (record := list_to_map [cell "entity_a" "Ann"; cell "entity_b" "Bob";
                              cell "strength" "2.5"] : csv_row).
  assert (link_of_record (fun _ => Some (Finite (5 # 2))) record
          = Some (edge "Ann" "Bob" 2)) as Hl by (vm_compute; reflexivity).
  destruct (weight_of_strength _ record _ Hl) as (_ & H & _).
  destruct (H "2.5" (5 # 2)) as [E _];
    [vm_compute; reflexivity | discriminate | vm_compute; reflexivity
    | reflexivity |].
  exact E.
Defined.

(** C8 fails as it is stated: the strength "0" converts to an integer
    and gives the weight 0. *)
Lemma weight_below_one :
  ~ (forall (py_float : string -> option pyfloat) (record : csv_row)
            (l : link),
        link_of_record py_float record = Some l -> 1 <= l_weight l).
Proof.
  intros H.
  specialize (H (fun _ => None)
                (list_to_map [cell "entity_a" "Ann"; cell "entity_b" "Bob";
                              cell "strength" "0"])
                {| l_source := "Ann"; l_target := "Bob"; l_type := "";
                   l_weight := 0 |} eq_refl).
  simpl in H. lia.
Qed.

(** ** Image lookup *)

Section Lookup.
Implicit Types (image_index : image_index_t) (keys : list string).

Lemma parts_match_qualifies (name_title key : string) :
  parts_match name_title key
  = (2 <=? length (PyStr.split name_title))%nat && qualifies name_title key.
Proof. reflexivity. Qed.

Lemma match_loop_find image_index keys (name_title : string) :
  match_loop image_index keys name_title
  = if (2 <=? length (PyStr.split name_title))%nat then
      match List.find (qualifies name_title) keys with
      | Some key => index_get image_index key
      | None => []
      end
    else [].
Proof.
  induction keys as [|key keys IH]; cbn [match_loop List.find].
  - by destruct (Nat.leb _ _).
  - rewrite parts_match_qualifies, IH.
    destruct (Nat.leb _ _); cbn [andb]; [|done].
    by destruct (qualifies name_title key).
Qed.

(** [find] gives the first element that passes the test. *)
Lemma find_first {A : Type} (f : A -> bool) (l : list A) (x : A) :
  List.find f l = Some x
  <-> exists l1 l2, l = (l1 ++ x :: l2)%list /\ f x = true
                    /\ Forall (fun y => f y = false) l1.
Proof.
  induction l as [|y l IH]; simpl.
  - split; [done|]. intros (l1 & l2 & E & _). by destruct l1.
  - destruct (f y) eqn:Hy.
    + split.
      * intros [= ->]. exists [], l. by repeat split.
      * intros ([|y' l1] & l2 & E & Hx & Hall).
        -- by injection E as -> _.
        -- injection E as -> _. apply Forall_inv in Hall. congruence.
    + rewrite IH. split.
      * intros (l1 & l2 & -> & Hx & Hall). exists (y :: l1), l2.
        repeat split; [done|by constructor].
      * intros ([|y' l1] & l2 & E & Hx & Hall).
        -- injection E as -> _. congruence.
        -- injection E as -> ->. apply Forall_inv_tail in Hall. eauto.
Qed.

Lemma find_none {A : Type} (f : A -> bool) (l : list A) :
  List.find f l = None <-> Forall (fun y => f y = false) l.
Proof.
  induction l as [|y l IH]; simpl; [by split; [constructor|]|].
  destruct (f y) eqn:Hy.
  - split; [done|]. intros H. apply Forall_inv in H. congruence.
  - rewrite IH. split; [by constructor|apply Forall_inv_tail].
Qed.
End Lookup.

(** C9 (as amended): the lookup puts the name in title case and returns
    the entry of that key when the entry has images. Otherwise, when the
    canonical name has fewer than two tokens it returns nothing; when it
    has two or more, it returns the entry of the first key of the index,
    in the order of the index, in which all tokens longer than two
    characters among the first two tokens occur, and nothing when there
    is no such key. *)
Theorem match_images_lookup (image_index : image_index_t) (name : string) :
  match_images image_index name = lookup_amended image_index name
  /\ (index_get image_index (PyStr.title name) <> [] ->
      match_images image_index name
      = index_get image_index (PyStr.title name))
  /\ (index_get image_index (PyStr.title name) = [] ->
      (length (PyStr.split (PyStr.title name)) < 2)%nat ->
      match_images image_index name = [])
  /\ (forall (before after : list string) (key : string),
         index_get image_index (PyStr.title name) = [] ->
         (2 <= length (PyStr.split (PyStr.title name)))%nat ->
         map fst image_index = (before ++ key :: after)%list ->
         qualifies (PyStr.title name) key = true ->
         Forall (fun k => qualifies (PyStr.title name) k = false) before ->
         match_images image_index name = index_get image_index key)
  /\ (index_get image_index (PyStr.title name) = [] ->
      Forall (fun k => qualifies (PyStr.title name) k = false)
             (map fst image_index) ->
      match_images image_index name = []).
Proof.
  assert (match_images image_index name = lookup_amended image_index name)
    as Heq.
  { unfold match_images, lookup_amended.
    destruct (index_get _ _); [|done]. apply match_loop_find. }
  split; [done|]. rewrite Heq. unfold lookup_amended.
  split; [|split; [|split]].
  - by destruct (index_get _ _).
  - intros -> Hlen. by apply Nat.leb_gt in Hlen as ->.
  - intros before after key -> Hlen Hkeys Hq Hall.
    apply Nat.leb_le in Hlen as ->.
    assert (List.find (qualifies (PyStr.title name)) (map fst image_index)
            = Some key) as ->; [|done].
    apply find_first. eauto.
  - intros -> Hall. apply find_none in Hall as ->.
    by destruct (Nat.leb _ _).
Qed.

Lemma match_images_lookup_witness :
  match_images [("Mary Smith", [photo "mary.jpg"]);
                ("Jane Doe", [photo "jane.jpg"])] "jane a. doe"
  = [photo "jane.jpg"].
Proof.
  destruct (match_images_lookup
              [("Mary Smith", [photo "mary.jpg"]);
               ("Jane Doe", [photo "jane.jpg"])] "jane a. doe")
    as (_ & _ & _ & H & _).
  apply (H ["Mary Smith"] [] "Jane Doe");
    [reflexivity | vm_compute; lia | reflexivity | reflexivity
    | by repeat constructor].
Defined.

(** C9 fails as it is stated: a name of one token gets nothing, although
    its token occurs in a key. *)
Lemma lookup_single_token :
  let image_index := [("Madonna Smith", [photo "madonna.jpg"])] in
  match_images image_index "madonna" = []
  /\ lookup_claimed image_index "madonna" = [photo "madonna.jpg"].
Proof. split; reflexivity. Qed.

(** An entry without images does not stop the search either. *)
Example lookup_empty_entry :
  let image_index :=
    [("Mary Jane Doe", [photo "mary.jpg"]); ("Jane Doe", [])] in
  match_images image_index "jane doe" = [photo "mary.jpg"]
  /\ lookup_claimed image_index "jane doe" = [].
Proof. split; reflexivity. Qed.

(** * Further properties *)

(** ** Stripping *)

Section Stripping.
Lemma lstrip_idem (s : string) : PyStr.lstrip (PyStr.lstrip s) = PyStr.lstrip s.
Proof.
  induction s as [|c r IH]; simpl; [done|].
  destruct (PyStr.is_space c) eqn:Hc; [done|]. simpl. by rewrite Hc.
Qed.

Lemma rstrip_cons (c : ascii) (r : string) :
  PyStr.rstrip (String c r)
  = match PyStr.rstrip r with
    | EmptyString =>
        if PyStr.is_space c then EmptyString else String c EmptyString
    | r' => String c r'
    end.
Proof. reflexivity. Qed.

Lemma rstrip_idem (s : string) : PyStr.rstrip (PyStr.rstrip s) = PyStr.rstrip s.
Proof.
  induction s as [|c r IH]; [done|]. rewrite rstrip_cons.
  destruct (PyStr.rstrip r) as [|d r'] eqn:Hr.
  - destruct (PyStr.is_space c) eqn:Hc; [done|].
    rewrite rstrip_cons. simpl. by rewrite Hc.
  - by rewrite rstrip_cons, IH.
Qed.

(** Stripping on the right keeps a first character that is no space. *)
Lemma rstrip_head (c : ascii) (r : string) :
  PyStr.is_space c = false ->
  exists r', PyStr.rstrip (String c r) = String c r'.
Proof.
  intros Hc. rewrite rstrip_cons.
  destruct (PyStr.rstrip r); [rewrite Hc|]; eauto.
Qed.

Lemma lstrip_rstrip (s : string) :
  PyStr.lstrip (PyStr.rstrip (PyStr.lstrip s)) = PyStr.rstrip (PyStr.lstrip s).
Proof.
  induction s as [|c r IH]; [done|].
  cbn [PyStr.lstrip]. destruct (PyStr.is_space c) eqn:Hc; [exact IH|].
  destruct (rstrip_head c r Hc) as [r' ->]. cbn [PyStr.lstrip].
  by rewrite Hc.
Qed.

Lemma strip_stripped (s : string) : stripped (PyStr.strip s).
Proof.
  unfold stripped, PyStr.strip. split; [apply lstrip_rstrip|apply rstrip_idem].
Qed.

Lemma strip_idem (s : string) : PyStr.strip (PyStr.strip s) = PyStr.strip s.
Proof.
  destruct (strip_stripped s) as [H1 H2].
  unfold PyStr.strip at 1. by rewrite H1, H2.
Qed.

Lemma nonempty_true (s : string) : PyStr.nonempty s = true <-> s <> "".
Proof. destruct s; simpl; split; done. Qed.
End Stripping.

(** ** Relationship extractor *)

Section RelationshipFacts.
Variable py_float : string -> option pyfloat.

Lemma link_of_record_ends (record : csv_row) (l : link) :
  link_of_record py_float record = Some l ->
  l_source l <> "" /\ l_target l <> ""
  /\ stripped (l_source l) /\ stripped (l_target l).
Proof.
  unfold link_of_record.
  destruct (PyStr.nonempty _ && PyStr.nonempty _) eqn:H; [|done].
  apply andb_true_iff in H as [Ha Hb]. intros [= <-]. simpl.
  repeat split; try by apply nonempty_true.
  all: apply strip_stripped.
Qed.

Lemma relationships_fold (records : list csv_row) (acc : list link)
  (ns : gset string) :
  foldl (relationships_step py_float) (acc, ns) records
  = ((acc ++ omap (link_of_record py_float) records)%list,
     ends_of (omap (link_of_record py_float) records) ∪ ns).
Proof.
  revert acc ns. induction records as [|r records IH]; intros acc ns; simpl.
  - rewrite app_nil_r. f_equal. unfold ends_of. simpl. set_solver.
  - unfold relationships_step at 2.
    destruct (link_of_record py_float r) as [l|]; simpl; rewrite IH; [|done].
    rewrite <- app_assoc. simpl. f_equal. unfold ends_of. simpl. set_solver.
Qed.

Lemma elem_of_ends_of (ls : list link) (n : string) :
  n ∈ ends_of ls <-> exists l, l ∈ ls /\ end_of n l.
Proof.
  unfold ends_of, end_of.
  rewrite elem_of_union, !elem_of_list_to_set, !list_elem_of_fmap.
  split.
  - intros [(l & -> & Hl)|(l & -> & Hl)]; eauto.
  - intros (l & Hl & [->| ->]); [left|right]; by exists l.
Qed.

Lemma omap_length_le {A B : Type} (f : A -> option B) (l : list A) :
  (length (omap f l) <= length l)%nat.
Proof.
  induction l as [|x l IH]; csimpl; [done|]. destruct (f x); simpl; lia.
Qed.
End RelationshipFacts.

(** X1: for every relationship file, [process_relationships] returns the
    edges of the rows that have both names, in the order of the rows, so
    never more edges than rows; every edge has a non-empty source and
    target without white space at their ends; and the node set is exactly
    the set of the ends of the edges. *)
Theorem relationships_extracted (py_float : string -> option pyfloat)
  (records : list csv_row) :
  exists (links : list link) (node_set : gset string),
    process_relationships py_float (Some records) = Some (links, node_set)
    /\ links = omap (link_of_record py_float) records
    /\ (length links <= length records)%nat
    /\ Forall (fun l => l_source l <> "" /\ l_target l <> ""
                        /\ stripped (l_source l) /\ stripped (l_target l))
              links
    /\ (forall n : string,
           n ∈ node_set <-> exists l, l ∈ links /\ end_of n l).
Proof.
  eexists _, _. split.
  { unfold process_relationships. by rewrite relationships_fold. }
  simpl. split; [done|]. split; [apply omap_length_le|]. split.
  - apply Forall_forall. intros l (r & Hr & Hl)%list_elem_of_omap.
    by eapply link_of_record_ends.
  - intros n. rewrite elem_of_union, elem_of_ends_of.
    split; [|by left]. intros [?|H]; [done|].
    by apply not_elem_of_empty in H.
Qed.

(** ** Connection counts of the extracted edges *)

Section CountTotals.
Implicit Types (c : gmap string Z) (E : list link) (n k : string).

Lemma total_insert_fresh c k (v : Z) :
  c !! k = None -> total (<[k := v]> c) = v + total c.
Proof.
  intros Hk. unfold total.
  rewrite map_fold_insert_L; [done| |done]. intros. lia.
Qed.

Lemma total_incr c k : total (incr k c) = total c + 1.
Proof.
  unfold incr, count_of. destruct (c !! k) as [v|] eqn:Hk; simpl.
  - rewrite <- (insert_delete_id c k v Hk) at 2.
    rewrite <- insert_delete_eq.
    rewrite !total_insert_fresh by apply lookup_delete_eq. lia.
  - rewrite total_insert_fresh by done. lia.
Qed.

Lemma total_fold c E :
  total (foldl count_step c E) = total c + 2 * Z.of_nat (length E).
Proof.
  revert c. induction E as [|l E IH]; intros c; simpl length; simpl foldl.
  - lia.
  - rewrite IH. unfold count_step. rewrite !total_incr. lia.
Qed.

Lemma incidence_pos E n (l : link) :
  l ∈ E -> end_of n l -> 1 <= incidence E n.
Proof.
  intros Hl He. unfold incidence.
  assert (forall (f : link -> bool), f l = true ->
            (1 <= length (List.filter f E))%nat) as Hpos.
  { intros f Hf. apply list_elem_of_In in Hl.
    assert (In l (List.filter f E)) as Hin by (apply filter_In; auto).
    destruct (List.filter f E); [done|simpl; lia]. }
  destruct He as [->| ->].
  - pose proof (Hpos (fun l' => String.eqb (l_source l') (l_source l))
                  (String.eqb_refl _)). lia.
  - pose proof (Hpos (fun l' => String.eqb (l_target l') (l_target l))
                  (String.eqb_refl _)). lia.
Qed.
End CountTotals.

(** X2: the connection counts derived from the extracted relationships
    have an entry exactly for the names of the node set, every entry is at
    least 1, and the entries add up to twice the number of edges. *)
Theorem counts_of_extracted (py_float : string -> option pyfloat)
  (records : list csv_row) :
  exists (links : list link) (node_set : gset string),
    process_relationships py_float (Some records) = Some (links, node_set)
    /\ dom (count_connections_from_relationships (Some (links, node_set)))
       = node_set
    /\ (forall n : string,
           n ∈ node_set ->
           1 <= count_of (count_connections_from_relationships
                            (Some (links, node_set))) n)
    /\ total (count_connections_from_relationships (Some (links, node_set)))
       = 2 * Z.of_nat (length links).
Proof.
  eexists _, _. split.
  { unfold process_relationships. by rewrite relationships_fold. }
  simpl. set (links := omap (link_of_record py_float) records).
  assert (forall n, n ∈ ends_of links ∪ (∅ : gset string)
                    <-> exists l, l ∈ links /\ end_of n l) as Hends.
  { intros n. rewrite elem_of_union, elem_of_ends_of.
    split; [|by left]. intros [?|H]; [done|].
    by apply not_elem_of_empty in H. }
  split; [|split].
  - apply set_eq. intros n. rewrite Hends, count_fold_dom, dom_empty.
    unfold end_of. split.
    + intros [H|(l & Hl & [E|E])]; [by apply not_elem_of_empty in H| |];
        exists l; auto.
    + intros (l & Hl & [E|E]); right; exists l; auto.
  - intros n (l & Hl & He)%Hends. rewrite count_fold.
    unfold count_of at 1. rewrite lookup_empty. simpl.
    pose proof (incidence_pos links n l Hl He). lia.
  - rewrite total_fold. unfold total. by rewrite map_fold_empty.
Qed.

(** ** More on the entity merger *)

Lemma count_connections_nonneg
  (relationships_data : option (list link * gset string)) (n : string) :
  0 <= count_of (count_connections_from_relationships relationships_data) n.
Proof.
  destruct relationships_data as [[E ns]|]; simpl.
  - rewrite count_fold. unfold count_of at 1. rewrite lookup_empty. simpl.
    unfold incidence. lia.
  - unfold count_of. by rewrite lookup_empty.
Qed.

Lemma kaggle_only_nil_l (S : list kaggle) : kaggle_only [] S = S.
Proof.
  unfold kaggle_only. induction S as [|p S IH]; [done|].
  rewrite filter_cons, decide_True; [by rewrite IH|].
  intros H. by inversion H.
Qed.

(** X3: every merged record has at least the connections that the
    relationship counts give to its name, whichever sources are present;
    so with the counts of [count_connections_from_relationships] no merged
    record has a negative number of connections, whatever the
    supplementary source says. *)
Theorem merge_connections_floor (Pd : option (list entity))
  (Sd : option (list kaggle)) :
  (forall C : gmap string Z,
      Forall (fun r => count_of C (p_name r) <= p_connections r)
             (merge_persons Pd Sd C))
  /\ (forall relationships_data : option (list link * gset string),
         Forall (fun r => 0 <= p_connections r)
                (merge_persons Pd Sd
                   (count_connections_from_relationships
                      relationships_data))).
Proof.
  assert (forall C : gmap string Z,
             Forall (fun r => count_of C (p_name r) <= p_connections r)
                    (merge_persons Pd Sd C)) as Hfloor.
  { intros C. rewrite merge_persons_cases. apply Forall_forall.
    destruct (items Pd) as [|e P].
    - intros r (p & -> & _)%list_elem_of_fmap. simpl. lia.
    - destruct (items Sd) as [|p S].
      + intros r (e' & -> & _)%list_elem_of_fmap. simpl. lia.
      + intros r. rewrite sort_desc_elem_of, merge_unsorted_eq, elem_of_app.
        intros [(e' & -> & _)%list_elem_of_fmap
               |(p' & -> & _)%list_elem_of_fmap]; simpl; lia. }
  split; [done|]. intros rd.
  eapply Forall_impl; [apply Hfloor|]. intros r Hr. simpl in Hr.
  pose proof (count_connections_nonneg rd (p_name r)). lia.
Qed.

(** X4: the merged list has one record for every primary record and one
    for every supplementary record whose case-insensitive name is no
    primary name, and no other record; so it is never shorter than the
    primary source nor longer than the two sources together. *)
Theorem merge_length (Pd : option (list entity)) (Sd : option (list kaggle))
  (C : gmap string Z) :
  length (merge_persons Pd Sd C)
  = (length (items Pd) + length (kaggle_only (items Pd) (items Sd)))%nat
  /\ (length (items Pd) <= length (merge_persons Pd Sd C))%nat
  /\ (length (merge_persons Pd Sd C)
      <= length (items Pd) + length (items Sd))%nat.
Proof.
  assert (length (merge_persons Pd Sd C)
          = (length (items Pd)
             + length (kaggle_only (items Pd) (items Sd)))%nat) as Hlen.
  { rewrite merge_persons_cases. destruct (items Pd) as [|e P].
    - by rewrite kaggle_only_nil_l, length_map.
    - destruct (items Sd) as [|p S].
      + rewrite length_map. unfold kaggle_only. simpl. lia.
      + rewrite sort_desc_length, merge_unsorted_eq, length_app, !length_map.
        done. }
  split; [done|]. rewrite Hlen. split; [lia|].
  unfold kaggle_only.
  pose proof (length_filter
                (fun p => PyStr.lower (k_name p) ∉ entity_names (items Pd))
                (items Sd)). lia.
Qed.

(** ** Invariants of the network assembler *)

Section NetworkInvariants.
Implicit Types (tbl : node_table) (c : pair_counter)
  (st : node_table * pair_counter).

Lemma foldl_preserves {A St : Type} (I : St -> Prop) (f : St -> A -> St)
  (l : list A) (s : St) :
  (forall s x, I s -> I (f s x)) -> I s -> I (foldl f s l).
Proof.
  intros Hf. revert s. induction l as [|x l IH]; intros s Hs; simpl; auto.
Qed.

Lemma add_node_ok tbl (name : string) (n : node) :
  n_id n = name -> table_ok tbl -> table_ok (add_node tbl name n).
Proof.
  intros Hid [Hnd Hall]. split; [by apply add_node_NoDup|].
  rewrite add_node_app. apply Forall_app. split; [done|].
  unfold added. destruct (has_node tbl name); by repeat constructor.
Qed.

Lemma table_ok_ids tbl : table_ok tbl -> map n_id (map snd tbl) = map fst tbl.
Proof.
  intros [_ Hall]. induction Hall as [|kv tbl Hkv _ IH]; simpl; [done|].
  by rewrite Hkv, IH.
Qed.

Lemma base_nodes_ok (persons : list person) : table_ok (base_nodes persons).
Proof.
  unfold base_nodes. apply foldl_preserves.
  - intros tbl p. by apply add_node_ok.
  - split; constructor.
Qed.

Lemma rel_step_ok (s : node_table * list link) (l : link) :
  table_ok s.1 -> table_ok (rel_step s l).1.
Proof. intros H. unfold rel_step. simpl. by repeat apply add_node_ok. Qed.

Lemma rel_step_ends (s : node_table * list link) (l : link) :
  ends_in s -> ends_in (rel_step s l).
Proof.
  unfold ends_in, rel_step. simpl. intros H. apply Forall_app. split.
  - eapply Forall_impl; [exact H|]. intros l' [H1 H2].
    rewrite !add_node_keys. auto.
  - repeat constructor; rewrite !add_node_keys; auto.
Qed.

Lemma pair_step_ok (p1 p2 : string) st :
  table_ok st.1 -> table_ok (pair_step p1 st p2).1.
Proof.
  intros H. unfold pair_step. destruct (String.eqb p1 p2); [done|].
  simpl. by repeat apply add_node_ok.
Qed.

Lemma pairs_loop_preserves (I : node_table * pair_counter -> Prop)
  (pax : list string) st :
  (forall p1 p2 st, I st -> I (pair_step p1 st p2)) ->
  I st -> I (pairs_loop pax st).
Proof.
  intros Hstep. revert st. induction pax as [|p1 rest IH]; intros st Hst.
  - done.
  - simpl. apply IH. apply foldl_preserves; [|done]. intros. by apply Hstep.
Qed.

Lemma flights_preserve (I : node_table * pair_counter -> Prop)
  (F : list flight) st :
  (forall p1 p2 st, I st -> I (pair_step p1 st p2)) ->
  I st -> I (foldl flight_step st F).
Proof.
  intros Hstep. apply foldl_preserves. intros s fl Hs. unfold flight_step.
  destruct (PyStr.nonempty _); [|done]. by apply pairs_loop_preserves.
Qed.

Lemma pair_step_pairs_in (p1 p2 : string) st :
  pairs_in st -> pairs_in (pair_step p1 st p2).
Proof.
  unfold pairs_in, pair_step. destruct (String.eqb p1 p2); [done|]. simpl.
  intros H. apply Forall_forall. intros pr [Hpr| ->]%pair_incr_pairs.
  - rewrite Forall_forall in H. destruct (H pr Hpr).
    rewrite !add_node_keys. auto.
  - destruct (sorted_pair_members p1 p2) as [M1 M2].
    assert (forall k, member_of k (sorted_pair p1 p2) -> k = p1 \/ k = p2)
      as Hmem.
    { unfold member_of, sorted_pair. destruct (PyStr.ltb p2 p1); simpl; tauto. }
    split; rewrite !add_node_keys.
    + destruct (Hmem (sorted_pair p1 p2).1) as [->| ->]; [by left|auto|auto].
    + destruct (Hmem (sorted_pair p1 p2).2) as [->| ->]; [by right|auto|auto].
Qed.

Lemma sorted_pair_asc (p1 p2 : string) :
  p1 <> p2 ->
  PyStr.ltb (sorted_pair p1 p2).1 (sorted_pair p1 p2).2 = true.
Proof.
  intros Hne. unfold sorted_pair. destruct (PyStr.ltb p2 p1) eqn:H; [done|].
  simpl. unfold PyStr.ltb, String.ltb in *.
  rewrite String.compare_antisym.
  destruct (String.compare p2 p1) eqn:Hc; try done.
  apply String.compare_eq_iff in Hc. congruence.
Qed.

Lemma pair_incr_keys (pr : string * string) c :
  pairs_of (pair_incr pr c)
  = (pairs_of c ++ if decide (pr ∈ pairs_of c) then [] else [pr])%list.
Proof.
  unfold pairs_of. induction c as [|[k v] c IH]; simpl.
  - destruct (decide (pr ∈ [])) as [H|H]; [by inversion H|done].
  - destruct (pair_eqb k pr) eqn:He; simpl.
    + apply pair_eqb_eq in He as ->.
      rewrite decide_True by left. by rewrite app_nil_r.
    + rewrite IH. f_equal. f_equal.
      assert (k <> pr) as Hne.
      { intros ->. rewrite (proj2 (pair_eqb_eq pr pr) eq_refl) in He. done. }
      destruct (decide (pr ∈ map fst c)) as [Hin|Hin].
      * rewrite decide_True; [done|by right].
      * rewrite decide_False; [done|].
        intros [?|?]%elem_of_cons; congruence.
Qed.

Lemma pair_incr_ok (pr : string * string) c :
  PyStr.ltb pr.1 pr.2 = true -> counter_ok c -> counter_ok (pair_incr pr c).
Proof.
  intros Hasc [Hnd Hall]. split.
  - rewrite pair_incr_keys. destruct (decide (pr ∈ pairs_of c)).
    + by rewrite app_nil_r.
    + apply NoDup_app. split; [done|]. split; [|apply NoDup_singleton].
      by intros k Hk ->%list_elem_of_singleton.
  - clear Hnd. induction Hall as [|[k v] c [H1 H2] Hc IH]; simpl.
    + repeat constructor; simpl; [done|lia].
    + destruct (pair_eqb k pr); constructor; simpl in *; auto.
      split; [done|lia].
Qed.

Lemma pair_step_counter_ok (p1 p2 : string) st :
  counter_ok st.2 -> counter_ok (pair_step p1 st p2).2.
Proof.
  intros H. unfold pair_step. destruct (String.eqb_spec p1 p2); [done|].
  simpl. apply pair_incr_ok; [|done]. by apply sorted_pair_asc.
Qed.

Lemma sorted_desc_take {A : Type} (key : A -> list Z) (n : nat)
  (l : list A) :
  sorted_desc key l -> sorted_desc key (take n l).
Proof.
  unfold sorted_desc. intros H. revert n.
  induction H as [|x l Hs IH Hx]; intros [|n]; simpl; try constructor.
  - apply IH.
  - by apply Forall_take.
Qed.

(** The state after the loop over the flights. *)
Lemma flights_state_ok (tbl : node_table) (F : list flight) :
  table_ok tbl ->
  let st := foldl flight_step (tbl, []) F in
  table_ok st.1 /\ pairs_in st /\ counter_ok st.2.
Proof.
  intros Htbl st. split; [|split].
  - apply (flights_preserve (fun s => table_ok s.1)); [|done].
    intros. by apply pair_step_ok.
  - apply (flights_preserve pairs_in); [|constructor].
    intros. by apply pair_step_pairs_in.
  - apply (flights_preserve (fun s => counter_ok s.2)).
    + intros. by apply pair_step_counter_ok.
    + split; constructor.
Qed.

Lemma most_common_sub (n : nat) c (kv : (string * string) * Z) :
  kv ∈ most_common n c -> kv ∈ c.
Proof.
  unfold most_common. intros (i & H & _)%elem_of_take.
  apply list_elem_of_lookup_2 in H. by apply sort_desc_elem_of in H.
Qed.
End NetworkInvariants.

Section NetworkFacts.
Lemma build_network_state (persons : list person)
  (relationships_data : option (list link * gset string))
  (flight_data : option (list flight)) :
  exists tbl : node_table,
    nodes (build_network persons relationships_data flight_data)
    = map snd tbl
    /\ table_ok tbl
    /\ Forall (fun l => l_source l ∈ map fst tbl /\ l_target l ∈ map fst tbl)
              (links (build_network persons relationships_data flight_data)).
Proof.
  pose proof (base_nodes_ok persons) as Hbase.
  unfold build_network. destruct relationships_data as [[ls ns]|]; simpl.
  - rewrite andb_false_r.
    assert (table_ok (foldl rel_step (base_nodes persons, []) (take 1000 ls)).1
            /\ ends_in (foldl rel_step (base_nodes persons, [])
                          (take 1000 ls))) as [H1 H2].
    { apply (foldl_preserves (fun s => table_ok s.1 /\ ends_in s)).
      - intros s l [? ?]. split; [by apply rel_step_ok|by apply rel_step_ends].
      - split; [done|constructor]. }
    eexists. split; [done|]. split; [done|]. exact H2.
  - rewrite andb_true_r. destruct (truthy flight_data); simpl.
    + destruct (flights_state_ok (base_nodes persons) (items flight_data)
                  Hbase) as (H1 & H2 & _).
      eexists. split; [done|]. split; [done|].
      apply Forall_forall. intros l (kv & -> & Hkv)%list_elem_of_fmap.
      apply most_common_sub in Hkv. unfold pairs_in in H2.
      rewrite Forall_forall in H2. apply (H2 kv.1).
      unfold pairs_of. by apply (list_elem_of_fmap_2 fst _ kv).
    + eexists. split; [done|]. split; [done|constructor].
Qed.

Lemma ltb_irrefl (a : string) : PyStr.ltb a a = false.
Proof.
  unfold PyStr.ltb, String.ltb. pose proof (String.compare_antisym a a) as H.
  destruct (String.compare a a); simpl in H; done.
Qed.
End NetworkFacts.

(** X5: the ids of the nodes of the network are pairwise distinct,
    whatever the persons, the relationships and the flights are. *)
Theorem network_ids_distinct (persons : list person)
  (relationships_data : option (list link * gset string))
  (flight_data : option (list flight)) :
  NoDup (map n_id
           (nodes (build_network persons relationships_data flight_data))).
Proof.
  destruct (build_network_state persons relationships_data flight_data)
    as (tbl & -> & Hok & _).
  rewrite table_ok_ids by done. by destruct Hok.
Qed.

(** X6: the network is closed: the source and the target of every link
    are ids of nodes of the network. *)
Theorem network_closed (persons : list person)
  (relationships_data : option (list link * gset string))
  (flight_data : option (list flight)) :
  let net := build_network persons relationships_data flight_data in
  Forall (fun l => l_source l ∈ map n_id (nodes net)
                   /\ l_target l ∈ map n_id (nodes net))
         (links net).
Proof.
  intros net. subst net.
  destruct (build_network_state persons relationships_data flight_data)
    as (tbl & -> & Hok & Hends).
  by rewrite table_ok_ids.
Qed.

(** X7: the co-occurrence edges are of type "co-passenger", each joins
    two different names, the smaller one in the order of strings being
    the source, with a weight of at least 1; no two of them join the same
    pair; they come in descending order of weight; and there are at most
    500 of them. *)
Theorem co_links_well_formed (flight_data : list flight) :
  Forall (fun l => l_type l = "co-passenger"
                   /\ 1 <= l_weight l
                   /\ PyStr.ltb (l_source l) (l_target l) = true
                   /\ l_source l <> l_target l)
         (co_links flight_data)
  /\ NoDup (map (fun l => (l_source l, l_target l)) (co_links flight_data))
  /\ sorted_desc (fun l => [l_weight l]) (co_links flight_data)
  /\ (length (co_links flight_data) <= 500)%nat.
Proof.
  destruct (flights_state_ok [] flight_data) as (_ & _ & Hnd & Hall).
  { split; constructor. }
  fold (co_occurrence_of flight_data) in Hnd, Hall.
  split; [|split; [|split]].
  - apply Forall_forall. intros l (kv & -> & Hkv)%list_elem_of_fmap.
    apply most_common_sub in Hkv. rewrite Forall_forall in Hall.
    destruct (Hall kv Hkv) as [Hlt Hw]. simpl.
    repeat split; [done|done|]. intros E. rewrite E, ltb_irrefl in Hlt. done.
  - unfold co_links. rewrite map_map. simpl.
    assert (map (fun kv : string * string * Z => (kv.1.1, kv.1.2))
                (most_common 500 (co_occurrence_of flight_data))
            = map fst (most_common 500 (co_occurrence_of flight_data))) as ->.
    { apply map_ext. by intros [[a b] v]. }
    unfold most_common.
    apply (sublist_NoDup _
             (map fst (sort_desc (fun kv : string * string * Z => [kv.2])
                         (co_occurrence_of flight_data)))).
    + assert (map fst (sort_desc (fun kv : string * string * Z => [kv.2])
                         (co_occurrence_of flight_data))
              ≡ₚ pairs_of (co_occurrence_of flight_data)) as HP
        by apply fmap_Permutation, sort_desc_perm.
      by rewrite HP.
    + apply (fmap_sublist fst), sublist_take.
  - unfold co_links.
    apply (sorted_desc_map (fun l => [l_weight l]) co_link).
    unfold most_common. apply sorted_desc_take.
    apply (sort_desc_sorted (fun kv : string * string * Z => [kv.2])).
  - apply co_links_length.
Qed.

(** ** Passenger names *)

Section Passengers.












Lemma chars_of_snoc (s : string) (c : ascii) :
  chars_of (s +:+ String c EmptyString) = (chars_of s ++ [c])%list.
Proof.
  unfold chars_of. induction s as [|d r IH]; simpl; [done|]. by rewrite IH.
Qed.

End Passengers.


(** ** Output of the two person normalizers *)

Section Normalized.
Lemma omap_length_filter {A B : Type} (f : A -> option B) (l : list A) :
  length (omap f l)
  = length (List.filter (fun x => bool_decide (is_Some (f x))) l).
Proof.
  induction l as [|x l IH]; csimpl; [done|].
  destruct (f x) as [y|]; simpl; by rewrite ?IH.
Qed.

Lemma filter_length_ext {A : Type} (f g : A -> bool) (l : list A) :
  (forall x, f x = g x) ->
  length (List.filter f l) = length (List.filter g l).
Proof. intros H. by rewrite (List.filter_ext f g H). Qed.

Lemma or_else_nonempty (a b : string) : b <> "" -> PyStr.or_else a b <> "".
Proof. unfold PyStr.or_else. destruct a; simpl; done. Qed.

Lemma entity_kept (image_index : image_index_t) (record : csv_row) :
  is_Some (entity_of_record image_index record)
  <-> PyStr.strip (get_str record "name") <> "".
Proof.
  unfold entity_of_record. rewrite <- nonempty_true.
  destruct (PyStr.nonempty _); split; intros H; try done; eauto;
    try (by destruct H).
Qed.

Lemma kaggle_kept (image_index : image_index_t) (record : csv_row) :
  is_Some (kaggle_of_record image_index record)
  <-> PyStr.strip (PyStr.or_else (get_str record "Name")
                     (get_str record "Persons of Interest")) <> "".
Proof.
  unfold kaggle_of_record. rewrite <- nonempty_true.
  destruct (PyStr.nonempty _); split; intros H; try done; eauto;
    try (by destruct H).
Qed.
End Normalized.

(** X9: [process_entities] keeps exactly the rows whose name cell has a
    character that is no white space; every record it gives has a
    non-empty name, and its name, entity type, role description and slug
    have no white space at their ends; the records come in descending
    order of (flights, documents), those of equal key in the order of the
    rows. *)
Theorem entities_normalized (image_index : image_index_t)
  (records : list csv_row) :
  exists out : list entity,
    process_entities image_index (Some records) = Some out
    /\ Forall (fun e => e_name e <> "" /\ stripped (e_name e)
                        /\ stripped (e_entity_type e)
                        /\ stripped (e_role_description e)
                        /\ stripped (e_slug e)) out
    /\ length out
       = length (List.filter
                   (fun r => bool_decide
                               (PyStr.strip (get_str r "name") <> ""))
                   records)
    /\ sorted_desc entity_key out
    /\ out ≡ₚ omap (entity_of_record image_index) records
    /\ (forall k, with_key entity_key k out
                  = with_key entity_key k
                      (omap (entity_of_record image_index) records)).
Proof.
  eexists. split; [reflexivity|]. split; [|split; [|split; [|split]]].
  - apply Forall_forall. intros e He%sort_desc_elem_of.
    apply list_elem_of_omap in He as (r & _ & He).
    unfold entity_of_record in He.
    destruct (PyStr.nonempty _) eqn:Hn; [|done]. injection He as <-. simpl.
    split; [by apply nonempty_true|]. repeat split; apply strip_stripped.
  - rewrite sort_desc_length, omap_length_filter. apply filter_length_ext.
    intros r. apply bool_decide_ext, entity_kept.
  - apply sort_desc_sorted.
  - apply sort_desc_perm.
  - intros k. apply sort_desc_stable.
Qed.

(** X10: [process_persons_kaggle] keeps exactly the rows whose name, the
    "Name" cell or else the "Persons of Interest" cell, has a character
    that is no white space, so a row with a blank "Name" cell that is not
    empty is dropped whatever the other cell holds; every record it gives
    has a non-empty name without white space at its ends and a non-empty
    nationality and category; the records come in descending order of
    (connections, flights, documents), those of equal key in the order of
    the rows. *)
Theorem kaggle_normalized (image_index : image_index_t)
  (all_records : list csv_row) :
  exists out : list kaggle,
    process_persons_kaggle image_index (Some all_records) = Some out
    /\ Forall (fun p => k_name p <> "" /\ stripped (k_name p)
                        /\ k_nationality p <> "" /\ k_category p <> "") out
    /\ length out
       = length (List.filter
                   (fun r => bool_decide
                               (PyStr.strip
                                  (PyStr.or_else (get_str r "Name")
                                     (get_str r "Persons of Interest"))
                                <> ""))
                   all_records)
    /\ (forall r : csv_row,
           get_str r "Name" <> "" -> PyStr.strip (get_str r "Name") = "" ->
           kaggle_of_record image_index r = None)
    /\ sorted_desc kaggle_key out
    /\ out ≡ₚ omap (kaggle_of_record image_index) all_records
    /\ (forall k, with_key kaggle_key k out
                  = with_key kaggle_key k
                      (omap (kaggle_of_record image_index) all_records)).
Proof.
  eexists. split; [reflexivity|].
  split; [|split; [|split; [|split; [|split]]]].
  - apply Forall_forall. intros p Hp%sort_desc_elem_of.
    apply list_elem_of_omap in Hp as (r & _ & Hp).
    unfold kaggle_of_record in Hp.
    destruct (PyStr.nonempty _) eqn:Hn; [|done]. injection Hp as <-. simpl.
    split; [by apply nonempty_true|]. split; [apply strip_stripped|].
    split; by apply or_else_nonempty.
  - rewrite sort_desc_length, omap_length_filter. apply filter_length_ext.
    intros r. apply bool_decide_ext, kaggle_kept.
  - intros r Hname Hblank. unfold kaggle_of_record, PyStr.or_else.
    destruct (get_str r "Name") as [|c s] eqn:E; [done|]. simpl PyStr.nonempty.
    cbv iota. by rewrite Hblank.
  - apply sort_desc_sorted.
  - apply sort_desc_perm.
  - intros k. apply sort_desc_stable.
Qed.

(** ** The stable ascending sort *)

Section SortAscFacts.
Context {A : Type} (key : A -> list Z).

Lemma insert_asc_perm (x : A) (l : list A) :
  Permutation (insert_asc key x l) (x :: l).
Proof.
  induction l as [|y l IH]; simpl; [done|].
  destruct (lex_ltb (key y) (key x)); [|done].
  rewrite IH. apply perm_swap.
Qed.

Lemma sort_asc_perm (l : list A) : Permutation (sort_asc key l) l.
Proof.
  induction l as [|x l IH]; simpl; [done|].
  unfold sort_asc in *. simpl. rewrite insert_asc_perm. by constructor.
Qed.

Lemma insert_asc_sorted (x : A) (l : list A) :
  sorted_asc key l -> sorted_asc key (insert_asc key x l).
Proof.
  unfold sorted_asc. induction 1 as [|y l Hs IH Hy]; simpl.
  - repeat constructor.
  - destruct (lex_ltb (key y) (key x)) eqn:Hxy.
    + constructor; [done|].
      rewrite insert_asc_perm. constructor; [|done].
      by apply lex_ltb_true_false.
    + constructor; [by constructor|].
      constructor; [done|].
      eapply Forall_impl; [exact Hy|]. intros z Hz. simpl in Hz.
      by eapply lex_ltb_false_trans.
Qed.

Lemma sort_asc_sorted (l : list A) : sorted_asc key (sort_asc key l).
Proof.
  induction l as [|x l IH]; [constructor|].
  by apply insert_asc_sorted.
Qed.

Lemma insert_asc_with_key (k : list Z) (x : A) (l : list A) :
  with_key key k (insert_asc key x l) = with_key key k (x :: l).
Proof.
  unfold with_key. induction l as [|y l IH]; simpl; [done|].
  destruct (lex_ltb (key y) (key x)) eqn:Hxy; [|done].
  simpl. rewrite IH. simpl.
  destruct (bool_decide (key y = k)) eqn:Hy,
           (bool_decide (key x = k)) eqn:Hx; try done.
  apply bool_decide_eq_true in Hy, Hx.
  rewrite Hy, Hx, lex_ltb_irrefl in Hxy. done.
Qed.

Lemma sort_asc_stable (k : list Z) (l : list A) :
  with_key key k (sort_asc key l) = with_key key k l.
Proof.
  induction l as [|x l IH]; [done|].
  change (sort_asc key (x :: l)) with (insert_asc key x (sort_asc key l)).
  rewrite insert_asc_with_key. unfold with_key in *. simpl.
  by rewrite IH.
Qed.

Lemma sort_asc_elem_of (x : A) (l : list A) :
  x ∈ sort_asc key l <-> x ∈ l.
Proof. by rewrite sort_asc_perm. Qed.

Lemma sort_asc_length (l : list A) : length (sort_asc key l) = length l.
Proof. by rewrite sort_asc_perm. Qed.
End SortAscFacts.

(** ** Flights *)

(** X11: [process_flights] drops no row: it gives one flight for every
    row, in ascending order of the date string, flights of equal date in
    the order of the rows. *)
Theorem flights_sorted (records : list csv_row) :
  exists out : list flight,
    process_flights (Some records) = Some out
    /\ length out = length records
    /\ sorted_asc flight_key out
    /\ out ≡ₚ map flight_of_record records
    /\ (forall k, with_key flight_key k out
                  = with_key flight_key k (map flight_of_record records)).
Proof.
  eexists. split; [reflexivity|]. split; [|split; [|split]].
  - by rewrite sort_asc_length, length_map.
  - apply sort_asc_sorted.
  - apply sort_asc_perm.
  - intros k. apply sort_asc_stable.
Qed.

Section Years.
Lemma year_at_sound (s y : string) :
  year_at s = Some y -> is_year y /\ exists post, s = y +:+ post.
Proof.
  unfold year_at.
  destruct s as [|a [|b [|c [|d post]]]]; try done.
  destruct (_ && _ && _) eqn:H; [|done]. intros [= <-].
  apply andb_true_iff in H as [H Hd]. apply andb_true_iff in H as [Hab Hc].
  split; [|by exists post].
  exists a, b, c, d. split; [done|]. split; [|done].
  apply orb_true_iff in Hab as [H|H];
    apply andb_true_iff in H as [Ha Hb];
    apply N.eqb_eq in Ha, Hb; unfold PyStr.code in *;
    rewrite <- (ascii_N_embedding a), <- (ascii_N_embedding b), Ha, Hb;
    [left|right]; done.
Qed.

Lemma year_at_complete (y post : string) :
  is_year y -> year_at (y +:+ post) = Some y.
Proof.
  intros (a & b & c & d & -> & Hab & Hc & Hd). simpl.
  rewrite Hc, Hd. by destruct Hab as [[-> ->]|[-> ->]].
Qed.

Lemma search_year_cons (c : ascii) (r : string) :
  search_year (String c r)
  = match year_at (String c r) with
    | Some y => Some y
    | None => search_year r
    end.
Proof. reflexivity. Qed.

Lemma search_year_none (s : string) :
  search_year s = None ->
  forall pre y post, is_year y -> s <> pre +:+ y +:+ post.
Proof.
  induction s as [|c r IH]; intros Hs pre y post Hy E.
  - destruct Hy as (a & b & c & d & -> & _). by destruct pre.
  - rewrite search_year_cons in Hs.
    destruct (year_at (String c r)) as [y'|] eqn:Hat; [done|].
    destruct pre as [|c' pre].
    + change (String c r = y +:+ post) in E.
      rewrite E, (year_at_complete y post Hy) in Hat. done.
    + change (String c r = String c' (pre +:+ y +:+ post)) in E.
      injection E as -> E. by apply (IH Hs pre y post Hy).
Qed.

Lemma search_year_some (s y : string) :
  search_year s = Some y ->
  is_year y
  /\ exists pre post,
       s = pre +:+ y +:+ post
       /\ forall pre' y' post',
            is_year y' -> s = pre' +:+ y' +:+ post' ->
            (String.length pre <= String.length pre')%nat.
Proof.
  revert y. induction s as [|c r IH]; intros y Hs; [done|].
  rewrite search_year_cons in Hs.
  destruct (year_at (String c r)) as [y0|] eqn:Hat.
  - injection Hs as ->. destruct (year_at_sound _ _ Hat) as [Hy [post E]].
    split; [done|]. exists EmptyString, post. split; [done|].
    intros. simpl. lia.
  - destruct (IH y Hs) as (Hy & pre & post & E & Hleft).
    split; [done|]. exists (String c pre), post. split; [by rewrite E|].
    intros [|c' pre'] y' post' Hy' E'.
    + change (String c r = y' +:+ post') in E'.
      rewrite E', (year_at_complete y' post' Hy') in Hat. done.
    + change (String c r = String c' (pre' +:+ y' +:+ post')) in E'.
      injection E' as -> E'. simpl.
      specialize (Hleft pre' y' post' Hy' E'). lia.
Qed.
End Years.

(** X12: the year of a flight is either empty or four characters, "19"
    or "20" and two digits, that occur in the date, at the leftmost place
    of the date where such four characters occur; it is empty exactly
    when no such four characters occur in the date. *)
Theorem flight_year (record : csv_row) :
  let fl := flight_of_record record in
  (f_year fl <> "" ->
   is_year (f_year fl)
   /\ exists pre post,
        f_date fl = pre +:+ f_year fl +:+ post
        /\ forall pre' y' post',
             is_year y' -> f_date fl = pre' +:+ y' +:+ post' ->
             (String.length pre <= String.length pre')%nat)
  /\ (f_year fl = "" <->
      forall pre y post, is_year y -> f_date fl <> pre +:+ y +:+ post).
Proof.
  simpl. set (date := PyStr.strip (get_str record "flight_date")).
  assert (forall y, is_year y -> y <> "") as Hne.
  { intros y (a & b & c & d & -> & _). done. }
  destruct (PyStr.nonempty date) eqn:Hd.
  - destruct (search_year date) as [y|] eqn:Hs; simpl.
    + destruct (search_year_some date y Hs) as (Hy & pre & post & E & Hl).
      split; [intros _; split; [done|by exists pre, post]|].
      split; [intros ->; by destruct (Hne "" Hy)|].
      intros H. by destruct (H pre y post Hy).
    + split; [done|]. split; [|done]. intros _. by apply search_year_none.
  - split; [done|]. split; [|done]. intros _ pre y post Hy E.
    destruct date; [|done]. destruct Hy as (a & b & c & d & -> & _).
    by destruct pre.
Qed.

Lemma flight_year_witness :
  is_year (f_year (flight_of_record
                     (list_to_map [cell "flight_date" " 3/4/2001 from 1999 "]))).
Proof.
  destruct (flight_year
              (list_to_map [cell "flight_date" " 3/4/2001 from 1999 "]))
    as [H _].
  destruct H as [Hy _]; [by vm_compute|exact Hy].
Defined.

(** ** Emails *)

(** X13: [process_emails] keeps exactly the rows that have a sender or a
    recipient with a character that is no white space; every email it
    gives has a non-empty sender or recipient, and its fields have no
    white space at their ends; the emails come in ascending order of the
    date string, those of equal date in the order of the rows. *)
Theorem emails_normalized (records : list csv_row) :
  exists out : list email,
    process_emails (Some records) = Some out
    /\ Forall (fun m => (m_from m <> "" \/ m_to m <> "")
                        /\ stripped (m_date m) /\ stripped (m_from m)
                        /\ stripped (m_to m) /\ stripped (m_subject m)
                        /\ stripped (m_slug m)) out
    /\ length out
       = length (List.filter
                   (fun r => bool_decide
                               (PyStr.strip (get_str r "from") <> ""
                                \/ PyStr.strip (get_str r "to") <> ""))
                   records)
    /\ sorted_asc email_key out
    /\ out ≡ₚ omap email_of_record records
    /\ (forall k, with_key email_key k out
                  = with_key email_key k (omap email_of_record records)).
Proof.
  eexists. split; [reflexivity|]. split; [|split; [|split; [|split]]].
  - apply Forall_forall. intros m Hm%sort_asc_elem_of.
    apply list_elem_of_omap in Hm as (r & _ & Hm).
    unfold email_of_record in Hm. simpl in Hm.
    destruct (_ || _) eqn:Hn; [|done]. injection Hm as <-. simpl.
    split; [|repeat split; apply strip_stripped].
    apply orb_true_iff in Hn as [H|H]; [left|right]; by apply nonempty_true.
  - rewrite sort_asc_length, omap_length_filter. apply filter_length_ext.
    intros r. apply bool_decide_ext. unfold email_of_record. simpl.
    rewrite <- !nonempty_true.
    destruct (PyStr.nonempty (PyStr.strip (get_str r "from"))),
             (PyStr.nonempty (PyStr.strip (get_str r "to"))); simpl;
      split; intros H; eauto; try (by destruct H); by destruct H as [|].
  - apply sort_asc_sorted.
  - apply sort_asc_perm.
  - intros k. apply sort_asc_stable.
Qed.

(** ** Frequency tables of the summary *)

Section Counters.
Lemma occurrences_cons (k x : string) (xs : list string) :
  occurrences k (x :: xs)
  = (if String.eqb k x then 1 else 0) + occurrences k xs.
Proof.
  unfold occurrences. simpl. destruct (String.eqb k x); simpl; lia.
Qed.

Lemma occurrences_nonneg (k : string) (xs : list string) :
  0 <= occurrences k xs.
Proof. unfold occurrences. lia. Qed.

Lemma occurrences_pos (k : string) (xs : list string) :
  k ∈ xs <-> 1 <= occurrences k xs.
Proof.
  induction xs as [|x xs IH].
  - unfold occurrences. simpl. split; [by intros ?%elem_of_nil|lia].
  - rewrite occurrences_cons, elem_of_cons, IH.
    pose proof (occurrences_nonneg k xs).
    destruct (String.eqb_spec k x); split; intros; try lia; auto.
    by destruct H0.
Qed.

Lemma occurrences_perm (k : string) (xs ys : list string) :
  xs ≡ₚ ys -> occurrences k xs = occurrences k ys.
Proof.
  induction 1 as [|x xs ys _ IH|x y xs|xs ys zs _ IH1 _ IH2];
    rewrite ?occurrences_cons; lia.
Qed.

Lemma str_incr_count (x : string) (c : str_counter) (k : string) :
  count_in (str_incr x c) k
  = count_in c k + (if String.eqb k x then 1 else 0).
Proof.
  induction c as [|[k' v] c IH]; simpl.
  - rewrite (String.eqb_sym k x). destruct (String.eqb x k); lia.
  - destruct (String.eqb_spec k' x) as [->|Hne]; simpl.
    + rewrite (String.eqb_sym k x). destruct (String.eqb x k); lia.
    + destruct (String.eqb_spec k' k) as [->|Hk]; [|apply IH].
      destruct (String.eqb_spec k x); [congruence|lia].
Qed.

Lemma str_incr_keys (x : string) (c : str_counter) :
  map fst (str_incr x c)
  = (map fst c ++ (if decide (x ∈ map fst c) then [] else [x]))%list.
Proof.
  induction c as [|[k' v] c IH]; simpl.
  - destruct (decide (x ∈ [])) as [H|_]; [by apply elem_of_nil in H|done].
  - destruct (String.eqb_spec k' x) as [->|Hne]; simpl.
    + rewrite decide_True by (by left). by rewrite app_nil_r.
    + rewrite IH. f_equal.
      destruct (decide (x ∈ map fst c)) as [Hin|Hout],
               (decide (x ∈ k' :: map fst c)) as [Hin'|Hout']; try done.
      * destruct Hout'. by right.
      * apply elem_of_cons in Hin' as [->|Hin']; done.
Qed.

Lemma counter_fold_count (xs : list string) (c : str_counter) (k : string) :
  count_in (foldl (fun c x => str_incr x c) c xs) k
  = count_in c k + occurrences k xs.
Proof.
  revert c. induction xs as [|x xs IH]; intros c; simpl.
  - unfold occurrences. simpl. lia.
  - rewrite IH, str_incr_count, occurrences_cons. lia.
Qed.

Lemma counter_fold_keys (xs : list string) (c : str_counter) :
  (NoDup (map fst c) ->
   NoDup (map fst (foldl (fun c x => str_incr x c) c xs)))
  /\ (forall k : string,
         k ∈ map fst (foldl (fun c x => str_incr x c) c xs)
         <-> k ∈ map fst c \/ k ∈ xs).
Proof.
  revert c. induction xs as [|x xs IH]; intros c; simpl.
  - split; [done|]. intros k. split; [by left|].
    intros [H|H]; [done|by apply elem_of_nil in H].
  - destruct (IH (str_incr x c)) as [Hnd Hk]. split.
    + intros H. apply Hnd. rewrite str_incr_keys.
      destruct (decide (x ∈ map fst c)) as [Hin|Hout];
        [by rewrite app_nil_r|].
      apply NoDup_app. split; [done|]. split; [|apply NoDup_singleton].
      intros y Hy ->%list_elem_of_singleton. done.
    + intros k. rewrite Hk, str_incr_keys, elem_of_app, elem_of_cons.
      destruct (decide (x ∈ map fst c)) as [Hin|Hout].
      * split; [intros [[H|H]|H]; auto; by apply elem_of_nil in H|].
        intros [H|[->|H]]; auto.
      * rewrite list_elem_of_singleton. tauto.
Qed.

Lemma count_in_elem (c : str_counter) (k : string) (v : Z) :
  NoDup (map fst c) -> (k, v) ∈ c -> count_in c k = v.
Proof.
  induction c as [|[k' v'] c IH]; simpl; intros Hnd Hin.
  - by apply elem_of_nil in Hin.
  - apply NoDup_cons in Hnd as [Hk' Hnd].
    apply elem_of_cons in Hin as [[= -> ->]|Hin].
    + by rewrite String.eqb_refl.
    + destruct (String.eqb_spec k' k) as [->|Hne]; [|by apply IH].
      destruct Hk'. by apply (list_elem_of_fmap_2 fst _ (k, v)).
Qed.

Lemma counter_of_frequencies (xs : list string) :
  frequencies_in xs (counter_of xs)
  /\ (forall k : string, k ∈ xs -> k ∈ map fst (counter_of xs)).
Proof.
  destruct (counter_fold_keys xs []) as [Hnd Hkeys].
  specialize (Hnd (NoDup_nil_2 : NoDup (map fst (@nil (string * Z))))). fold (counter_of xs) in Hnd, Hkeys.
  split; [split; [done|]|].
  - apply Forall_forall. intros [k v] Hkv. simpl.
    assert (k ∈ map fst (counter_of xs)) as Hk
      by (by apply (list_elem_of_fmap_2 fst _ (k, v))).
    apply Hkeys in Hk as [Hk|Hk]; [by apply elem_of_nil in Hk|].
    split; [done|].
    rewrite <- (count_in_elem _ _ _ Hnd Hkv). unfold counter_of.
    by rewrite counter_fold_count.
  - intros k Hk. apply Hkeys. by right.
Qed.

Lemma frequencies_sublist (xs : list string) (t t' : str_counter) :
  sublist t' t -> frequencies_in xs t -> frequencies_in xs t'.
Proof.
  intros Hs [Hnd Hf]. split.
  - eapply sublist_NoDup; [exact Hnd|by apply fmap_sublist].
  - rewrite Forall_forall in *. intros kv Hkv. apply Hf.
    by apply (elem_of_sublist t' t).
Qed.

Lemma frequencies_perm (xs : list string) (t t' : str_counter) :
  t' ≡ₚ t -> frequencies_in xs t -> frequencies_in xs t'.
Proof.
  intros HP [Hnd Hf]. split.
  - assert (map fst t' ≡ₚ map fst t) as HP' by (by apply fmap_Permutation).
    by rewrite HP'.
  - by rewrite HP.
Qed.

Lemma sorted_desc_split {A : Type} (key : A -> list Z) (l1 l2 : list A) :
  sorted_desc key (l1 ++ l2) ->
  forall x y : A, x ∈ l1 -> y ∈ l2 -> lex_ltb (key x) (key y) = false.
Proof.
  unfold sorted_desc. induction l1 as [|a l1 IH]; simpl; intros H x y Hx Hy.
  - by apply elem_of_nil in Hx.
  - apply StronglySorted_inv in H as [Hs Ha].
    apply elem_of_cons in Hx as [->|Hx]; [|by apply (IH Hs)].
    rewrite Forall_forall in Ha. apply Ha. apply elem_of_app. by right.
Qed.

Lemma lex_ltb_single (a b : Z) : lex_ltb [a] [b] = false <-> b <= a.
Proof.
  simpl. rewrite andb_false_r, orb_false_r. apply Z.ltb_ge.
Qed.

Lemma most_common_top (n : nat) (xs : list string) :
  top_table n xs (str_most_common n (counter_of xs)).
Proof.
  destruct (counter_of_frequencies xs) as [Hf Hall].
  unfold str_most_common.
  pose proof (sort_desc_perm (fun kv : string * Z => [kv.2]) (counter_of xs))
    as HP.
  pose proof (sort_desc_sorted (fun kv : string * Z => [kv.2])
                (counter_of xs)) as Hsorted.
  set (sorted := sort_desc (fun kv : string * Z => [kv.2]) (counter_of xs))
    in *.
  assert (frequencies_in xs sorted) as HfS
    by (by apply (frequencies_perm xs (counter_of xs))).
  split; [|split; [|split]].
  - eapply frequencies_sublist; [apply sublist_take|done].
  - by apply sorted_desc_take.
  - rewrite length_take. lia.
  - intros k Hk Hout.
    assert ((k, occurrences k xs) ∈ sorted) as Hin.
    { rewrite HP. apply Hall in Hk.
      apply list_elem_of_fmap in Hk as ([k' v] & -> & Hkv).
      destruct Hf as [_ Hf]. rewrite Forall_forall in Hf.
      destruct (Hf _ Hkv) as [_ Hv]. simpl in *. by rewrite <- Hv. }
    rewrite <- (take_drop n sorted) in Hin.
    apply elem_of_app in Hin as [Hin|Hin].
    { destruct Hout.
      by apply (list_elem_of_fmap_2 fst _ (k, occurrences k xs)). }
    split.
    + rewrite length_take.
      destruct (decide (n < length sorted)%nat) as [Hlt|Hge]; [lia|].
      rewrite drop_ge in Hin by lia. by apply elem_of_nil in Hin.
    + apply Forall_forall. intros kv Hkv.
      pose proof (sorted_desc_split (fun kv : string * Z => [kv.2])
                    (take n sorted) (drop n sorted)) as Hsp.
      rewrite take_drop in Hsp.
      specialize (Hsp Hsorted kv _ Hkv Hin).
      by apply lex_ltb_single in Hsp.
Qed.

Lemma item_key_strict (a b : string) (v w : Z) :
  lex_ltb (codes b ++ [-1; w]) (codes a ++ [-1; v]) = false ->
  a <> b -> PyStr.ltb a b = true.
Proof.
  unfold PyStr.ltb, String.ltb, codes.
  revert b. induction a as [|c a IH]; intros [|d b]; simpl; try done.
  - intros H. apply orb_false_iff in H as [H _]. apply Z.ltb_ge in H. lia.
  - intros H Hne. apply orb_false_iff in H as [Hlt H].
    apply Z.ltb_ge in Hlt. unfold Ascii.compare.
    destruct (N.compare_spec (N_of_ascii c) (N_of_ascii d)) as [E|E|E];
      [|done|lia].
    assert (c = d) as ->.
    { by rewrite <- (ascii_N_embedding c), <- (ascii_N_embedding d), E. }
    rewrite Z.eqb_refl in H. simpl in H.
    apply IH; [done|]. intros ->. done.
Qed.

Lemma sorted_asc_strict (t : str_counter) :
  NoDup (map fst t) -> sorted_asc item_key t ->
  StronglySorted (fun a b => PyStr.ltb a.1 b.1 = true) t.
Proof.
  unfold sorted_asc. induction t as [|a t IH]; intros Hnd Hs; simpl in *;
    [constructor|].
  apply NoDup_cons in Hnd as [Ha Hnd].
  apply StronglySorted_inv in Hs as [Hs Hall].
  constructor; [by apply IH|].
  rewrite Forall_forall in *. intros b Hb.
  apply (item_key_strict _ _ a.2 b.2); [by apply Hall|].
  intros E. destruct Ha. rewrite E.
  by apply (list_elem_of_fmap_2 fst _ b).
Qed.

Lemma sorted_items_full (xs : list string) :
  full_table xs (sorted_items (counter_of xs)).
Proof.
  destruct (counter_of_frequencies xs) as [Hf Hall].
  pose proof (sort_asc_perm item_key (counter_of xs)) as HP.
  assert (frequencies_in xs (sorted_items (counter_of xs))) as HfS
    by (by apply (frequencies_perm xs (counter_of xs))).
  split; [done|]. split.
  - intros k Hk.
    assert (map fst (sorted_items (counter_of xs))
            ≡ₚ map fst (counter_of xs)) as HP'
      by (by apply fmap_Permutation).
    rewrite HP'. by apply Hall.
  - apply sorted_asc_strict; [by destruct HfS|apply sort_asc_sorted].
Qed.
End Counters.

(** X14: the nationalities of the summary are a table of the 20 most
    frequent non-empty nationalities of the persons, and the categories a
    table of their 20 most frequent categories: the keys of a table are
    pairwise distinct, each with the number of persons that have it, in
    descending order of that number, and a value is left out only when
    the table has 20 rows, none of them less frequent; no nationality of
    the table is empty. *)
Theorem person_tables (persons_data : list person) :
  top_table 20
    (map p_nationality
       (List.filter (fun p => PyStr.nonempty (p_nationality p))
          persons_data))
    (nationalities persons_data)
  /\ Forall (fun kv => kv.1 <> "") (nationalities persons_data)
  /\ top_table 20 (map p_category persons_data) (categories persons_data).
Proof.
  split; [apply most_common_top|]. split; [|apply most_common_top].
  destruct (most_common_top 20
              (map p_nationality
                 (List.filter (fun p => PyStr.nonempty (p_nationality p))
                    persons_data))) as [[_ H] _].
  eapply Forall_impl; [exact H|]. intros kv [Hin _].
  apply list_elem_of_fmap in Hin as (p & -> & Hp).
  apply list_elem_of_In, filter_In in Hp as [_ Hp].
  by destruct (p_nationality p).
Qed.

(** ** The lists of the leading persons *)

Section TopLists.
Context {A : Type} (val : A -> Z).

Lemma take_sorted_left_out (n : nat) (l : list A) (x : A) :
  x ∈ l -> x ∉ take n (sort_desc (fun a => [val a]) l) ->
  length (take n (sort_desc (fun a => [val a]) l)) = n
  /\ Forall (fun y => val x <= val y)
            (take n (sort_desc (fun a => [val a]) l)).
Proof.
  pose proof (sort_desc_sorted (fun a => [val a]) l) as Hsorted.
  intros Hin%(sort_desc_elem_of (fun a => [val a])) Hout.
  set (sorted := sort_desc (fun a => [val a]) l) in *.
  rewrite <- (take_drop n sorted) in Hin.
  apply elem_of_app in Hin as [Hin|Hin]; [done|]. split.
  - rewrite length_take.
    destruct (decide (n < length sorted)%nat) as [Hlt|Hge]; [lia|].
    rewrite drop_ge in Hin by lia. by apply elem_of_nil in Hin.
  - apply Forall_forall. intros y Hy.
    pose proof (sorted_desc_split (fun a => [val a])
                  (take n sorted) (drop n sorted)) as Hsp.
    rewrite take_drop in Hsp. specialize (Hsp Hsorted y x Hy Hin).
    by apply lex_ltb_single in Hsp.
Qed.

Lemma filter_perm (f : A -> bool) (l l' : list A) :
  l ≡ₚ l' -> List.filter f l ≡ₚ List.filter f l'.
Proof.
  induction 1 as [|x l l' _ IH|x y l|l l' l'' _ IH1 _ IH2]; simpl.
  - done.
  - destruct (f x); by rewrite IH.
  - destruct (f x), (f y); try done. apply perm_swap.
  - by rewrite IH1.
Qed.

Lemma filter_none (f : A -> bool) (l : list A) :
  Forall (fun x => f x = false) l -> List.filter f l = [].
Proof. induction 1 as [|x l Hx _ IH]; simpl; [done|]. by rewrite Hx. Qed.

Lemma filter_all (f : A -> bool) (l : list A) :
  Forall (fun x => f x = true) l -> List.filter f l = l.
Proof.
  induction 1 as [|x l Hx _ IH]; simpl; [done|]. by rewrite Hx, IH.
Qed.

Lemma sorted_desc_filter (key : A -> list Z) (f : A -> bool) (l : list A) :
  sorted_desc key l -> sorted_desc key (List.filter f l).
Proof.
  unfold sorted_desc. induction 1 as [|x l Hs IH Hx]; simpl; [constructor|].
  destruct (f x); [|done]. constructor; [done|].
  rewrite Forall_forall in *. intros y Hy%list_elem_of_In%filter_In.
  apply Hx, list_elem_of_In. by destruct Hy.
Qed.

Lemma positive_prefix (n : nat) (l : list A) :
  sorted_desc (fun a => [val a]) l ->
  length (List.filter (fun a => (0 <? val a)%Z) (take n l))
  = min n (length (List.filter (fun a => (0 <? val a)%Z) l)).
Proof.
  unfold sorted_desc. intros H. revert n.
  induction H as [|x l Hs IH Hx]; intros [|n]; simpl; try done.
  destruct (0 <? val x)%Z eqn:Hpos; simpl; [by rewrite IH|].
  apply Z.ltb_ge in Hpos.
  assert (Forall (fun a => (0 <? val a)%Z = false) l) as Hnone.
  { eapply Forall_impl; [exact Hx|]. intros y Hy. simpl in Hy.
    apply lex_ltb_single in Hy. apply Z.ltb_ge. lia. }
  rewrite (filter_none _ l Hnone).
  by rewrite (filter_none _ (take n l)) by (by apply Forall_take).
Qed.
End TopLists.

(** X15: the persons leading by flights are the first of the persons in
    descending order of flights, as far as they have a flight: as many as
    there are persons with a flight, and at most 15; each is a person with
    its flights, of which it has at least one; and a person with a flight
    is left out only when the list has 15 rows, none with fewer flights. *)
Theorem leading_by_flights (persons_data : list person) :
  let top := top_by_flights persons_data in
  length top
  = min 15 (length (List.filter (fun p => (0 <? p_flights p)%Z) persons_data))
  /\ Forall (fun kv => 0 < kv.2
                       /\ exists p : person,
                            p ∈ persons_data
                            /\ kv = (p_name p, p_flights p)) top
  /\ sorted_desc (fun kv => [kv.2]) top
  /\ (forall p : person,
         p ∈ persons_data -> 0 < p_flights p ->
         (p_name p, p_flights p) ∉ top ->
         length top = 15%nat /\ Forall (fun kv => p_flights p <= kv.2) top).
Proof.
  intros top. subst top. unfold top_by_flights.
  pose proof (sort_desc_sorted (fun x => [p_flights x]) persons_data)
    as Hsorted.
  pose proof (sort_desc_perm (fun x => [p_flights x]) persons_data) as HP.
  split; [|split; [|split]].
  - rewrite length_map, (positive_prefix p_flights) by done.
    by rewrite (filter_perm _ _ _ HP).
  - apply Forall_forall. intros kv (p & -> & Hp)%list_elem_of_fmap.
    apply list_elem_of_In, filter_In in Hp as [Hp Hpos].
    apply Z.ltb_lt in Hpos. split; [done|]. exists p. split; [|done].
    apply list_elem_of_In in Hp.
    apply (sort_desc_elem_of (fun x => [p_flights x])).
    eapply elem_of_sublist; [exact Hp|apply sublist_take].
  - apply sorted_desc_map. simpl. apply sorted_desc_filter.
    by apply sorted_desc_take.
  - intros p Hp Hpos Hout.
    destruct (take_sorted_left_out p_flights 15 persons_data p Hp)
      as [Hlen Hall].
    { intros Hin. destruct Hout.
      apply (list_elem_of_fmap_2 (fun p => (p_name p, p_flights p))).
      apply list_elem_of_In, filter_In. split; [by apply list_elem_of_In|].
      by apply Z.ltb_lt. }
    rewrite filter_all.
    + split; [by rewrite length_map|].
      apply Forall_forall. intros kv (q & -> & Hq)%list_elem_of_fmap.
      rewrite Forall_forall in Hall. by apply Hall.
    + eapply Forall_impl; [exact Hall|]. intros q Hq. simpl in Hq.
      apply Z.ltb_lt. lia.
Qed.

(** X16: the persons leading by connections are the first 15 of the
    persons in descending order of connections, or all of them when they
    are fewer; a person is left out only when the list has 15 rows, none
    with fewer connections. *)
Theorem leading_by_connections (persons_data : list person) :
  let top := top_by_connections persons_data in
  length top = min 15 (length persons_data)
  /\ Forall (fun kv => exists p : person,
                         p ∈ persons_data
                         /\ kv = (p_name p, p_connections p)) top
  /\ sorted_desc (fun kv => [kv.2]) top
  /\ (forall p : person,
         p ∈ persons_data -> (p_name p, p_connections p) ∉ top ->
         length top = 15%nat
         /\ Forall (fun kv => p_connections p <= kv.2) top).
Proof.
  intros top. subst top. unfold top_by_connections.
  split; [|split; [|split]].
  - by rewrite length_map, length_take, sort_desc_length.
  - apply Forall_forall. intros kv (p & -> & Hp)%list_elem_of_fmap.
    exists p. split; [|done].
    apply (sort_desc_elem_of (fun x => [p_connections x])).
    eapply elem_of_sublist; [exact Hp|apply sublist_take].
  - apply sorted_desc_map. simpl. apply sorted_desc_take, sort_desc_sorted.
  - intros p Hp Hout.
    destruct (take_sorted_left_out p_connections 15 persons_data p Hp)
      as [Hlen Hall].
    { intros Hin. destruct Hout.
      by apply (list_elem_of_fmap_2 (fun p => (p_name p, p_connections p))). }
    split; [by rewrite length_map|].
    apply Forall_forall. intros kv (q & -> & Hq)%list_elem_of_fmap.
    rewrite Forall_forall in Hall. by apply Hall.
Qed.

(** ** The tables by year and the histogram of importance *)

Section YearTables.
Lemma sum_counts_incr (x : string) (c : str_counter) :
  sum_counts (str_incr x c) = sum_counts c + 1.
Proof.
  unfold sum_counts. induction c as [|[k v] c IH]; simpl; [lia|].
  destruct (String.eqb k x); simpl; [lia|]. rewrite IH. lia.
Qed.

Lemma sum_counts_fold (xs : list string) (c : str_counter) :
  sum_counts (foldl (fun c x => str_incr x c) c xs)
  = sum_counts c + Z.of_nat (length xs).
Proof.
  revert c. induction xs as [|x xs IH]; intros c; simpl; [lia|].
  rewrite IH, sum_counts_incr. lia.
Qed.

Lemma sum_counts_perm (t t' : str_counter) :
  t ≡ₚ t' -> sum_counts t = sum_counts t'.
Proof.
  unfold sum_counts.
  induction 1 as [|x l l' _ IH|x y l|l l' l'' _ IH1 _ IH2]; simpl; lia.
Qed.

Lemma sorted_items_sum (xs : list string) :
  sum_counts (sorted_items (counter_of xs)) = Z.of_nat (length xs).
Proof.
  rewrite (sum_counts_perm _ (counter_of xs)) by apply sort_asc_perm.
  unfold counter_of. rewrite sum_counts_fold. unfold sum_counts. simpl. lia.
Qed.

Lemma occurrences_map {A : Type} (f : A -> string) (k : string)
  (l : list A) :
  occurrences k (map f l)
  = Z.of_nat (length (List.filter (fun x => String.eqb k (f x)) l)).
Proof.
  induction l as [|x l IH]; simpl; [done|].
  rewrite occurrences_cons, IH. destruct (String.eqb k (f x)); simpl; lia.
Qed.

Lemma filter_map_swap {A B : Type} (P : B -> bool) (g : A -> B)
  (l : list A) :
  List.filter P (map g l) = map g (List.filter (fun x => P (g x)) l).
Proof.
  induction l as [|x l IH]; simpl; [done|].
  destruct (P (g x)); simpl; by rewrite IH.
Qed.

Lemma occurrences_nonempty {A : Type} (f : A -> string) (k : string)
  (l : list A) :
  k <> "" ->
  occurrences k (map f (List.filter (fun x => PyStr.nonempty (f x)) l))
  = Z.of_nat (length (List.filter (fun x => String.eqb k (f x)) l)).
Proof.
  intros Hk. induction l as [|x l IH]; simpl; [done|].
  destruct (PyStr.nonempty (f x)) eqn:Hn; simpl.
  - rewrite occurrences_cons, IH.
    destruct (String.eqb k (f x)); simpl; lia.
  - assert (String.eqb k (f x) = false) as ->; [|done].
    apply String.eqb_neq. intros ->. by destruct (f x).
Qed.

Lemma occurrences_omap {A : Type} (f : A -> option string) (k : string)
  (l : list A) :
  occurrences k (omap f l)
  = Z.of_nat
      (length (List.filter (fun x => bool_decide (f x = Some k)) l)).
Proof.
  induction l as [|x l IH]; csimpl; [done|].
  destruct (f x) as [y|]; simpl.
  - rewrite occurrences_cons, IH.
    destruct (String.eqb_spec k y) as [->|Hne].
    + rewrite bool_decide_true by done. simpl. lia.
    + rewrite bool_decide_false by congruence. lia.
  - exact IH.
Qed.

Lemma flight_year_valid (record : csv_row) :
  PyStr.nonempty (f_year (flight_of_record record)) = true ->
  is_year (f_year (flight_of_record record)).
Proof.
  simpl. destruct (PyStr.nonempty (PyStr.strip _)); [|done].
  destruct (search_year _) as [y|] eqn:Hs; simpl; [|done].
  intros _. by destruct (search_year_some _ _ Hs).
Qed.
End YearTables.

(** X17: the flights by year of the summary, taken from the output of
    [process_flights], are the full table of the non-empty years of the
    flights: one row for every such year, each a year of four characters
    with the number of rows of the file that have it, in strictly
    ascending order of the year; the counts add up to the number of rows
    that have a year. *)
Theorem flights_by_year_table (records : list csv_row) :
  exists flight_data : list flight,
    process_flights (Some records) = Some flight_data
    /\ full_table (flight_years flight_data) (flights_by_year flight_data)
    /\ Forall (fun kv =>
                 is_year kv.1
                 /\ kv.2
                    = Z.of_nat
                        (length
                           (List.filter
                              (fun r => String.eqb kv.1
                                          (f_year (flight_of_record r)))
                              records)))
              (flights_by_year flight_data)
    /\ sum_counts (flights_by_year flight_data)
       = Z.of_nat
           (length
              (List.filter
                 (fun r => PyStr.nonempty (f_year (flight_of_record r)))
                 records)).
Proof.
  eexists. split; [reflexivity|].
  set (flight_data := sort_asc flight_key (map flight_of_record records)).
  assert (flight_years flight_data
          ≡ₚ flight_years (map flight_of_record records)) as HP.
  { unfold flight_years. apply Permutation_map, filter_perm, sort_asc_perm. }
  assert (flight_years (map flight_of_record records)
          = map (fun r => f_year (flight_of_record r))
              (List.filter
                 (fun r => PyStr.nonempty (f_year (flight_of_record r)))
                 records)) as Hyears.
  { unfold flight_years. by rewrite filter_map_swap, map_map. }
  pose proof (sorted_items_full (flight_years flight_data)) as Hfull.
  split; [exact Hfull|]. split.
  - destruct Hfull as [[_ Hf] _]. eapply Forall_impl; [exact Hf|].
    intros [k v] [Hin Hv]. simpl in *.
    rewrite HP, Hyears in Hin.
    apply list_elem_of_fmap in Hin as (r & -> & Hr).
    apply list_elem_of_In, filter_In in Hr as [_ Hr].
    split; [by apply flight_year_valid|].
    rewrite Hv, (occurrences_perm _ _ _ HP), Hyears.
    apply (occurrences_nonempty (fun r => f_year (flight_of_record r))).
    intros E. by rewrite E in Hr.
  - unfold flights_by_year. rewrite sorted_items_sum. f_equal.
    rewrite HP, Hyears. by rewrite length_map.
Qed.

(** X18: the emails by year of the summary, taken from the output of
    [process_emails], are the full table of the years found in the dates
    of the emails: one row for every year that is the leftmost one of a
    date, each a year of four characters with the number of emails whose
    date has it as its leftmost year, in strictly ascending order of the
    year; the counts add up to the number of emails whose date has a
    year. *)
Theorem emails_by_year_table (records : list csv_row) :
  exists email_data : list email,
    process_emails (Some records) = Some email_data
    /\ full_table (email_years email_data) (emails_by_year email_data)
    /\ Forall (fun kv =>
                 is_year kv.1
                 /\ kv.2
                    = Z.of_nat
                        (length
                           (List.filter
                              (fun e => bool_decide
                                          (search_year (m_date e)
                                           = Some kv.1))
                              email_data)))
              (emails_by_year email_data)
    /\ sum_counts (emails_by_year email_data)
       = Z.of_nat
           (length
              (List.filter
                 (fun e => bool_decide (is_Some (search_year (m_date e))))
                 email_data)).
Proof.
  eexists. split; [reflexivity|].
  set (email_data := sort_asc email_key (omap email_of_record records)).
  pose proof (sorted_items_full (email_years email_data)) as Hfull.
  split; [exact Hfull|]. split.
  - destruct Hfull as [[_ Hf] _]. eapply Forall_impl; [exact Hf|].
    intros [k v] [Hin Hv]. simpl in *.
    apply list_elem_of_omap in Hin as (e & _ & He).
    split; [by destruct (search_year_some _ _ He)|].
    rewrite Hv. apply occurrences_omap.
  - unfold emails_by_year. rewrite sorted_items_sum. f_equal.
    unfold email_years. apply omap_length_filter.
Qed.

Section Buckets.
Lemma append_cons (a : ascii) (d s : string) :
  String a d +:+ s = String a (d +:+ s).
Proof. reflexivity. Qed.

Lemma append_snoc (d : string) (c : ascii) (s : string) :
  (d +:+ String c EmptyString) +:+ s = d +:+ String c s.
Proof.
  induction d as [|a d IH]; [done|]. by rewrite !append_cons, IH.
Qed.

Lemma append_empty (d : string) : d +:+ EmptyString = d.
Proof. induction d as [|a d IH]; [done|]. by rewrite append_cons, IH. Qed.

Lemma pretty_N_char_no_dash (x : N) : pretty_N_char x <> "-"%char.
Proof. unfold pretty_N_char. by repeat case_match. Qed.

Lemma pretty_N_go_digits (x : N) (s : string) :
  exists d : string,
    pretty_N_go x s = d +:+ s /\ no_dash d /\ ((0 < x)%N -> d <> "").
Proof.
  revert s. induction (N.lt_wf_0 x) as [x _ IH]; intros s.
  destruct (decide (0 < x)%N) as [Hx|Hx].
  - rewrite pretty_N_go_step by done.
    destruct (IH (x `div` 10)%N (N.div_lt x 10 Hx eq_refl)
                (String (pretty_N_char (x `mod` 10)) s))
      as (d & -> & Hd & _).
    exists (d +:+ String (pretty_N_char (x `mod` 10)) EmptyString).
    split; [by rewrite append_snoc|]. split.
    + unfold no_dash. rewrite chars_of_snoc. apply Forall_app.
      split; [done|]. constructor; [apply pretty_N_char_no_dash|constructor].
    + intros _. by destruct d.
  - assert (x = 0%N) as -> by lia. exists EmptyString.
    rewrite pretty_N_go_0. split; [done|]. split; [constructor|lia].
Qed.

Lemma pretty_N_digits (n : N) : pretty n <> "" /\ no_dash (pretty n).
Proof.
  unfold pretty, pretty_N. destruct (decide (n = 0%N)) as [->|Hn].
  - split; [done|]. by repeat constructor.
  - destruct (pretty_N_go_digits n "") as (d & -> & Hd & Hne).
    rewrite append_empty. split; [apply Hne; lia|done].
Qed.

Lemma pretty_Z_shape (z : Z) :
  (0 <= z -> pretty z <> "" /\ no_dash (pretty z))
  /\ (z < 0 ->
      exists d : string, pretty z = String "-" d /\ no_dash d).
Proof.
  destruct z as [|p|p]; split; try lia; intros _.
  - split; [done|]. by repeat constructor.
  - apply (pretty_N_digits (N.pos p)).
  - exists (pretty (N.pos p)). split; [done|]. apply pretty_N_digits.
Qed.

Lemma dash_split (d1 d2 r1 r2 : string) :
  no_dash d1 -> no_dash d2 ->
  d1 +:+ String "-" r1 = d2 +:+ String "-" r2 -> d1 = d2.
Proof.
  unfold no_dash, chars_of. revert d2.
  induction d1 as [|c d1 IH]; intros [|c' d2]; simpl; intros H1 H2 E;
    rewrite ?append_cons in E;
    change (EmptyString +:+ String "-" r1) with (String "-" r1) in E;
    change (EmptyString +:+ String "-" r2) with (String "-" r2) in E.
  - done.
  - injection E as <- _. by apply Forall_cons in H2 as [? _].
  - injection E as -> _. by apply Forall_cons in H1 as [? _].
  - injection E as -> E.
    apply Forall_cons in H1 as [_ H1]. apply Forall_cons in H2 as [_ H2].
    f_equal. by apply IH.
Qed.

Lemma label_inj (a b : Z) (ra rb : string) :
  pretty a +:+ String "-" ra = pretty b +:+ String "-" rb -> a = b.
Proof.
  intros E.
  destruct (pretty_Z_shape a) as [Ha Ha'], (pretty_Z_shape b) as [Hb Hb'].
  destruct (Z_lt_le_dec a 0) as [Hla|Hla], (Z_lt_le_dec b 0) as [Hlb|Hlb].
  - destruct (Ha' Hla) as (da & Ea & Hda), (Hb' Hlb) as (db & Eb & Hdb).
    apply (inj pretty). rewrite Ea, Eb in *. rewrite !append_cons in E.
    injection E as E.
    f_equal. by apply (dash_split da db ra rb).
  - destruct (Ha' Hla) as (da & Ea & _), (Hb Hlb) as [Hne Hnd].
    rewrite Ea in E. destruct (pretty b) as [|c s]; [done|].
    rewrite !append_cons in E. injection E as <- _.
    unfold no_dash, chars_of in Hnd. simpl in Hnd.
    by apply Forall_cons in Hnd as [? _].
  - destruct (Hb' Hlb) as (db & Eb & _), (Ha Hla) as [Hne Hnd].
    rewrite Eb in E. destruct (pretty a) as [|c s]; [done|].
    rewrite !append_cons in E. injection E as -> _.
    unfold no_dash, chars_of in Hnd. simpl in Hnd.
    by apply Forall_cons in Hnd as [? _].
  - destruct (Ha Hla) as [_ Hda], (Hb Hlb) as [_ Hdb].
    apply (inj pretty). by apply (dash_split _ _ ra rb).
Qed.

Lemma bucket_same (s s' : Z) : bucket s = bucket s' <-> s / 10 = s' / 10.
Proof.
  unfold bucket. split; [|by intros ->].
  intros E. apply label_inj in E. lia.
Qed.

Lemma bucket_range (s0 s : Z) :
  String.eqb (bucket s0) (bucket s)
  = ((s0 / 10 * 10 <=? s)%Z && (s <=? s0 / 10 * 10 + 9)%Z).
Proof.
  destruct (String.eqb_spec (bucket s0) (bucket s)) as [E|E].
  - apply bucket_same in E. symmetry. apply andb_true_iff.
    rewrite Z.leb_le, Z.leb_le. rewrite E.
    pose proof (Z.div_mod s 10). pose proof (Z.mod_pos_bound s 10). lia.
  - symmetry. apply andb_false_iff. rewrite !Z.leb_gt.
    destruct (Z_lt_le_dec s (s0 / 10 * 10)) as [H|H]; [by left|].
    destruct (Z_lt_le_dec (s0 / 10 * 10 + 9) s) as [H'|H']; [by right|].
    destruct E. apply bucket_same.
    apply (Z.div_unique s 10 (s0 / 10) (s - s0 / 10 * 10)); lia.
Qed.
End Buckets.

(** X19: the importance distribution of the summary is the full table of
    the buckets of the scores: every row is the label of a range of ten
    scores that starts at a multiple of 10, with the number of scores in
    that range, scores below 0 included; different ranges have different
    labels; the counts add up to the number of scores; and the rows come
    in ascending order of the labels as strings, which is not the order
    of the ranges: the bucket of 100 comes before the bucket of 25. *)
Theorem importance_histogram (scores : list Z) :
  let dist := importance_distribution scores in
  full_table (map bucket scores) dist
  /\ Forall (fun kv =>
               exists lo : Z,
                 lo mod 10 = 0
                 /\ kv.1 = pretty lo +:+ "-" +:+ pretty (lo + 9)
                 /\ kv.2
                    = Z.of_nat
                        (length
                           (List.filter
                              (fun s => (lo <=? s)%Z && (s <=? lo + 9)%Z)
                              scores)))
            dist
  /\ (forall s s' : Z, bucket s = bucket s' <-> s / 10 = s' / 10)
  /\ sum_counts dist = Z.of_nat (length scores)
  /\ importance_distribution [25; 100; -3]
     = [("-10--1", 1); ("100-109", 1); ("20-29", 1)].
Proof.
  intros dist. subst dist. unfold importance_distribution.
  pose proof (sorted_items_full (map bucket scores)) as Hfull.
  split; [exact Hfull|]. split; [|split; [|split]].
  - destruct Hfull as [[_ Hf] _]. eapply Forall_impl; [exact Hf|].
    intros [k v] [Hin Hv]. simpl in *.
    apply list_elem_of_fmap in Hin as (s0 & -> & _).
    exists (s0 / 10 * 10). split; [apply Z.mod_mul; lia|]. split; [done|].
    rewrite Hv, occurrences_map. f_equal. apply filter_length_ext.
    intros s. apply bucket_range.
  - apply bucket_same.
  - by rewrite sorted_items_sum, length_map.
  - by vm_compute.
Qed.

(** ** Image files and the keys of the image index *)

Section ImageKeys.





















End ImageKeys.



